(** * pypco_generator: a shallow embedding of [tools/pypco_generator.py]

    The generator walks the documentation graph of one PCO application and
    renders a model file and an endpoint file.  This development embeds
    [generate] and [_underscore_to_camelcase] and proves the properties the
    specification states about them.

    Modelling conventions.
    - Python [str] is [string]; a character is a one-character [string], as
      it is in Python.  [str.upper] is modelled on the ASCII letters (the
      identifiers of the API are ASCII); every other character is unchanged.
      A property that would fail for a character whose uppercase is another
      non-ASCII character or two characters is stated for ASCII strings
      ([Py.isascii]).
    - Python exceptions are the type [exn]; a computation ends in an
      [outcome]: it returns, it raises, or a [while] loop runs out of fuel.
    - Mutable objects are threaded through a state monad [M]: the list
      [string] of the name formatter, and the file system for [generate].
    - The JSON documents are records of the fields the code subscripts:
      the responses of the API are taken to have the shape the code expects.
    - [requests.get], [jinja2.Template.render] and [os.sep] are external:
      they are the fields of a record [World]; every request is taken to be
      answered, and every write to succeed.  Logging is left out. *)

From Stdlib Require Import ZArith Ascii String.
From stdpp Require Import base option list strings gmap.

Local Open Scope string_scope.
Local Open Scope list_scope.

(** ** Exceptions and outcomes *)

Inductive exn : Type :=
| IndexError
| ValueError
| KeyError (key : string).

(** [type(e).__name__] *)
Definition class_name (e : exn) : string :=
  match e with
  | IndexError => "IndexError"
  | ValueError => "ValueError"
  | KeyError _ => "KeyError"
  end.

(** [isinstance(e, LookupError)]: in Python, [LookupError] is the base class
    of [IndexError] and of [KeyError]. *)
Definition is_LookupError (e : exn) : bool :=
  match e with
  | IndexError | KeyError _ => true
  | ValueError => false
  end.

Inductive outcome (A : Type) : Type :=
| Returns (a : A)
| Raises (e : exn)
| OutOfFuel.

Arguments Returns {A} a.
Arguments Raises {A} e.
Arguments OutOfFuel {A}.

#[global] Instance outcome_ret : MRet outcome := @Returns.
#[global] Instance outcome_bind : MBind outcome := λ A B f o,
  match o with
  | Returns a => f a
  | Raises e => Raises e
  | OutOfFuel => OutOfFuel
  end.

(** ** The state monad for code that mutates an object *)

Definition M (S A : Type) : Type := S → outcome A * S.

#[global] Instance M_ret {S} : MRet (M S) := λ A a s, (Returns a, s).
#[global] Instance M_bind {S} : MBind (M S) := λ A B f m s,
  match m s with
  | (Returns a, s') => f a s'
  | (Raises e, s') => (Raises e, s')
  | (OutOfFuel, s') => (OutOfFuel, s')
  end.

(** a computation that does not touch the state *)
Definition lift {S A} (o : outcome A) : M S A := λ s, (o, s).

(** read the object, and replace it *)
Definition get {S} : M S S := λ s, (Returns s, s).
Definition put {S} (s : S) : M S unit := λ _, (Returns tt, s).

(** [try: body  except E: handler], where [catch] says which exceptions are
    instances of [E]; the state at the handler is the state at the raise *)
Definition try_except {S} (body : M S unit) (catch : exn → bool)
    (handler : M S unit) : M S unit := λ s,
  match body s with
  | (Raises e, s') => if catch e then handler s' else (Raises e, s')
  | r => r
  end.

(** [while True: body] *)
Fixpoint while_true {S} (fuel : nat) (body : M S unit) : M S unit :=
  match fuel with
  | O => λ s, (OutOfFuel, s)
  | S fuel' => body ≫= λ _, while_true fuel' body
  end.

(** ** Python lists and strings *)

Module Py.

Section Lists.
Context {A : Type}.

(** The position an index denotes: a negative index counts from the end;
    [None] when it is out of range. *)
Definition position (l : list A) (i : Z) : option nat :=
  let n := Z.of_nat (length l) in
  let j := (if i <? 0 then i + n else i)%Z in
  if ((j <? 0) || (n <=? j))%Z then None else Some (Z.to_nat j).

(** [l[i]] *)
Definition getitem (l : list A) (i : Z) : outcome A :=
  match position l i with
  | Some j =>
      match l !! j with
      | Some x => Returns x
      | None => Raises IndexError
      end
  | None => Raises IndexError
  end.

(** [l[i] = x] *)
Definition setitem (l : list A) (i : Z) (x : A) : outcome (list A) :=
  match position l i with
  | Some j => Returns (<[j:=x]> l)
  | None => Raises IndexError
  end.

(** [del l[i]] *)
Definition delitem (l : list A) (i : Z) : outcome (list A) :=
  match position l i with
  | Some j => Returns (delete j l)
  | None => Raises IndexError
  end.

Context `{EqDecision A}.

Fixpoint find (x : A) (l : list A) : option nat :=
  match l with
  | [] => None
  | y :: l' => if decide (y = x) then Some O else S <$> find x l'
  end.

(** [l.index(x)]: the first position of [x], [ValueError] without one *)
Definition index (l : list A) (x : A) : outcome Z :=
  match find x l with
  | Some i => Returns (Z.of_nat i)
  | None => Raises ValueError
  end.
End Lists.

(** [s.split(sep)] for a one-character separator *)
Fixpoint split (sep : ascii) (s : string) : list string :=
  match s with
  | EmptyString => [EmptyString]
  | String c s' =>
      if decide (c = sep) then EmptyString :: split sep s'
      else match split sep s' with
           | w :: ws => String c w :: ws
           | [] => [String c EmptyString]
           end
  end.

(** [list(s)]: the characters of [s], each a string of length one *)
Fixpoint list_of (s : string) : list string :=
  match s with
  | EmptyString => []
  | String c s' => String c EmptyString :: list_of s'
  end.

(** [''.join(l)] *)
Definition join (l : list string) : string := foldr String.append EmptyString l.

(** [c.upper()] for a character: the ASCII letters [a] to [z] go to [A] to
    [Z], every other character is left as it is. *)
Definition upper_ascii (c : ascii) : ascii :=
  let n := nat_of_ascii c in
  if (97 <=? n)%nat && (n <=? 122)%nat then ascii_of_nat (n - 32) else c.

(** [s.upper()] *)
Fixpoint upper (s : string) : string :=
  match s with
  | EmptyString => EmptyString
  | String c s' => String (upper_ascii c) (upper s')
  end.

(** [s.replace(old, new)] for one-character [old] and [new] *)
Fixpoint replace (old new : ascii) (s : string) : string :=
  match s with
  | EmptyString => EmptyString
  | String c s' => String (if decide (c = old) then new else c) (replace old new s')
  end.

(** [s.isascii()]: every character is below 128 *)
Fixpoint isascii (s : string) : bool :=
  match s with
  | EmptyString => true
  | String c s' => (nat_of_ascii c <? 128)%nat && isascii s'
  end.

(** [s.endswith(c)] for a one-character [c] *)
Fixpoint endswith (c : ascii) (s : string) : bool :=
  match s with
  | EmptyString => false
  | String c' s' =>
      match s' with
      | EmptyString => bool_decide (c' = c)
      | String _ _ => endswith c s'
      end
  end.

End Py.

(** ** The name formatter *)

(** The body of the [while True] loop of [_underscore_to_camelcase]; the
    state is the list [string]. *)
Definition camelcase_body (repl_char : string) : M (list string) unit :=
  string ← get;
  under_ndx ← lift (Py.index string repl_char);
  string ← lift (Py.delitem string under_ndx);
  put string;;
  c ← lift (Py.getitem string under_ndx);
  string ← lift (Py.setitem string under_ndx (Py.upper c));
  put string.

Definition is_ValueError (e : exn) : bool :=
  match e with ValueError => true | _ => false end.

(** [_underscore_to_camelcase(underscore_str, repl_char)], the loop given
    [fuel] iterations *)
Definition underscore_to_camelcase_fuel (fuel : nat)
    (underscore_str repl_char : string) : outcome string :=
  let prog : M (list string) string :=
    string ← get;
    c ← lift (Py.getitem string 0);
    string ← lift (Py.setitem string 0 (Py.upper c));
    put string;;
    try_except (while_true fuel (camelcase_body repl_char))
      is_ValueError (mret tt);;
    string ← get;
    mret (Py.join string)
  in fst (prog (Py.list_of underscore_str)).

(** Every iteration deletes one element of the list, so the loop is over
    after at most [len(underscore_str)] deletions and one failed search. *)
Definition _underscore_to_camelcase (underscore_str repl_char : string)
    : outcome string :=
  underscore_to_camelcase_fuel (S (String.length underscore_str))
    underscore_str repl_char.

(** ** The documents of the API and the two lists of [generate] *)

(** An element of [doc_json['data']['relationships']['vertices']['data']]:
    [vertex['id']] and [vertex['attributes']['name']]. *)
Record VertexStub : Type := {
  stub_id : string;
  stub_name : string
}.

(** An element of the [outbound_edges] of the entry vertex:
    [edge['attributes']['name']] and
    [edge['relationships']['head']['data']['id']]. *)
Record Edge : Type := {
  edge_name : string;
  edge_head : string
}.

(** The root document [doc_json]. *)
Record RootDoc : Type := {
  root_vertices : list VertexStub;
  root_outbound_edges : list Edge
}.

(** A vertex document [vertex_json]: [['data']['id']],
    [['data']['attributes']['path']] and
    [['data']['attributes']['description']]. *)
Record VertexDoc : Type := {
  vertex_id : string;
  vertex_path : string;
  vertex_description : string
}.

(** An element of [models]. *)
Record ModelSpec : Type := {
  model_name : string;
  model_endpoint : string;
  model_description : string
}.

(** An element of [endpoints]. *)
Record EndpointSpec : Type := {
  endpoint_name : string;
  endpoint_description : string
}.

(** What [generate] takes from outside: the documents the API answers with
    (by URL), the rendering of the two templates from their variables
    [app] and [models] or [endpoints], and the path separator. *)
Record World : Type := {
  requests_get_root : string → RootDoc;
  requests_get_vertex : string → VertexDoc;
  render_model : string → list ModelSpec → string;
  render_endpoint : string → list EndpointSpec → string;
  os_sep : string
}.

(** [d[k]] for a dict *)
Definition dict_getitem (d : gmap string string) (k : string) : outcome string :=
  match d !! k with
  | Some v => Returns v
  | None => Raises (KeyError k)
  end.

(** ** [generate] *)

(** Lines 111-112: the app the documentation URL is for. *)
Definition generate_app (doc_url : string) : outcome string :=
  let url_split := Py.split "/" doc_url in
  ndx ← Py.index url_split "v2";
  Py.getitem url_split (ndx - 1).

(** Lines 151 and 156: the ['endpoint'] of a model, from the [path]
    attribute of its vertex document. *)
Definition generate_endpoint_field (vertex_path : string) : outcome string :=
  let path := Py.split "/" vertex_path in
  last ← Py.getitem path (-1);
  if decide (last = "v2") then Returns ""
  else ndx ← Py.index path "v2"; Py.getitem path (ndx + 1).

Section Generate.
Variable w : World.

(** Line 144: the vertex document of a vertex of the root document. *)
Definition fetch_vertex (doc_url : string) (vertex : VertexStub) : VertexDoc :=
  requests_get_vertex w (doc_url +:+ "/vertices/" +:+ stub_id vertex).

(** Lines 140-161: the loop over [vertices], from the [models] and the
    [description_dict] built so far. *)
Fixpoint generate_models (doc_url : string) (vertices : list VertexStub)
    (models : list ModelSpec) (description_dict : gmap string string)
    : outcome (list ModelSpec * gmap string string) :=
  match vertices with
  | [] => Returns (models, description_dict)
  | vertex :: vertices' =>
      if decide (stub_id vertex = "organization")
      then generate_models doc_url vertices' models description_dict
      else
        let vertex_json := fetch_vertex doc_url vertex in
        endpoint ← generate_endpoint_field (vertex_path vertex_json);
        let models :=
          (models ++ [ {| model_name := stub_name vertex;
                          model_endpoint := endpoint;
                          model_description := vertex_description vertex_json |} ]) in
        last ← Py.getitem models (-1);
        let description_dict :=
          <[vertex_id vertex_json := model_description last]> description_dict in
        generate_models doc_url vertices' models description_dict
  end.

(** Lines 190-199: the loop over [outbound_edges], from the [endpoints]
    built so far.  The name is formatted before the description is
    looked up, as the dict display evaluates its values in order. *)
Fixpoint generate_endpoints (description_dict : gmap string string)
    (outbound_edges : list Edge) (endpoints : list EndpointSpec)
    : outcome (list EndpointSpec) :=
  match outbound_edges with
  | [] => Returns endpoints
  | edge :: outbound_edges' =>
      if decide (edge_head edge = "organization")
      then generate_endpoints description_dict outbound_edges' endpoints
      else
        name ← _underscore_to_camelcase (edge_name edge) "_";
        description ← dict_getitem description_dict (edge_head edge);
        generate_endpoints description_dict outbound_edges'
          (endpoints ++ [ {| endpoint_name := name;
                             endpoint_description := description |} ])
  end.

(** ["{}{}{}.py".format(path, os.sep, app.replace('-', '_'))] *)
Definition output_file (path app : string) : string :=
  path +:+ os_sep w +:+ Py.replace "-" "_" app +:+ ".py".

(** [codecs.open(file, 'w', 'utf-8')] and [write]: the file holds
    [content] and nothing else afterwards.  The state is the file system,
    a map from file names to contents; the directories are taken to exist
    and to be writable. *)
Definition write_file (file content : string) : M (gmap string string) unit :=
  λ fs, (Returns tt, <[file := content]> fs).

(** [generate(doc_url, endpoint_path, model_path)] *)
Definition generate (doc_url endpoint_path model_path : string)
    : M (gmap string string) unit :=
  app ← lift (generate_app doc_url);
  let doc_json := requests_get_root w doc_url in
  '(models, description_dict) ←
    lift (generate_models doc_url (root_vertices doc_json) [] ∅);
  app_name ← lift (_underscore_to_camelcase app "-");
  let model_output := render_model w app_name models in
  write_file (output_file model_path app) model_output;;
  endpoints ←
    lift (generate_endpoints description_dict (root_outbound_edges doc_json) []);
  app_name ← lift (_underscore_to_camelcase app "-");
  let endpoint_output := render_endpoint w app_name endpoints in
  write_file (output_file endpoint_path app) endpoint_output.
End Generate.

(** ** The entries of the two lists, one by one *)

Section Entries.
Variable w : World.

(** Lines 144-158: the element the loop over [vertices] appends for a
    vertex. *)
Definition model_of (doc_url : string) (vertex : VertexStub) : outcome ModelSpec :=
  let vertex_json := fetch_vertex w doc_url vertex in
  endpoint ← generate_endpoint_field (vertex_path vertex_json);
  mret {| model_name := stub_name vertex;
          model_endpoint := endpoint;
          model_description := vertex_description vertex_json |}.

(** Line 161: the entry of [description_dict] the loop records for a
    vertex. *)
Definition record_description (doc_url : string)
    (description_dict : gmap string string) (vertex : VertexStub)
    : gmap string string :=
  let vertex_json := fetch_vertex w doc_url vertex in
  <[vertex_id vertex_json := vertex_description vertex_json]> description_dict.

(** Lines 194-199: the element the loop over [outbound_edges] appends for
    an edge. *)
Definition endpoint_of (description_dict : gmap string string) (edge : Edge)
    : outcome EndpointSpec :=
  name ← _underscore_to_camelcase (edge_name edge) "_";
  description ← dict_getitem description_dict (edge_head edge);
  mret {| endpoint_name := name; endpoint_description := description |}.

(** The world whose root documents have no [organization] vertex and no
    edge to it; everything else is as in [w]. *)
Definition without_organization : World :=
  {| requests_get_root := λ url,
       {| root_vertices :=
            filter (λ vertex, stub_id vertex ≠ "organization")
                   (root_vertices (requests_get_root w url));
          root_outbound_edges :=
            filter (λ edge, edge_head edge ≠ "organization")
                   (root_outbound_edges (requests_get_root w url)) |};
     requests_get_vertex := requests_get_vertex w;
     render_model := render_model w;
     render_endpoint := render_endpoint w;
     os_sep := os_sep w |}.
End Entries.

(** ** The pascal-case form, as the specification words it

    The first character and each character following a delimiter are
    uppercased, and the delimiters are removed.  [cap] says whether the
    next character is the first one or follows a delimiter. *)
Fixpoint pascal_from (delimiter : ascii) (cap : bool) (s : string) : string :=
  match s with
  | EmptyString => EmptyString
  | String c s' =>
      if decide (c = delimiter) then pascal_from delimiter true s'
      else String (if cap then Py.upper_ascii c else c)
                  (pascal_from delimiter false s')
  end.

Definition pascal_case (delimiter : ascii) (s : string) : string :=
  pascal_from delimiter true s.

(** ** The scenario of the specification, as a world

    The root document lists the vertices [a] (named People) and
    [organization]; the entry vertex has the edges [list_people] to [a] and
    [organization] to [organization]. *)
Module Scenario.

Definition doc_url : string :=
  "https://api.planningcenteronline.com/people/v2/documentation/2018-08-01".

Definition root : RootDoc :=
  {| root_vertices :=
       [ {| stub_id := "a"; stub_name := "People" |};
         {| stub_id := "organization"; stub_name := "Organization" |} ];
     root_outbound_edges :=
       [ {| edge_name := "list_people"; edge_head := "a" |};
         {| edge_name := "organization"; edge_head := "organization" |} ] |}.

Definition vertex_a : VertexDoc :=
  {| vertex_id := "a";
     vertex_path := "https://api.planningcenteronline.com/people/v2/people";
     vertex_description := "A person" |}.

Definition render_models (app : string) (models : list ModelSpec) : string :=
  app +:+ "Model" +:+
  Py.join ((λ m, " " +:+ model_name m +:+ "=" +:+ model_endpoint m) <$> models).

Definition render_endpoints (app : string) (endpoints : list EndpointSpec) : string :=
  app +:+ "Endpoint" +:+ Py.join ((λ e, " " +:+ endpoint_name e) <$> endpoints).

Definition world : World :=
  {| requests_get_root := λ _, root;
     requests_get_vertex := λ _, vertex_a;
     render_model := render_models;
     render_endpoint := render_endpoints;
     os_sep := "/" |}.

(** The same graph with one more edge, whose head was never fetched. *)
Definition dangling_root : RootDoc :=
  {| root_vertices := root_vertices root;
     root_outbound_edges :=
       (root_outbound_edges root ++
        [ {| edge_name := "list_households"; edge_head := "b" |} ]) |}.

Definition dangling_world : World :=
  {| requests_get_root := λ _, dangling_root;
     requests_get_vertex := λ _, vertex_a;
     render_model := render_models;
     render_endpoint := render_endpoints;
     os_sep := "/" |}.

(** The two files as an earlier run left them. *)
Definition stale_fs : gmap string string :=
  <["models/people.py" := "stale"]> (<["endpoints/people.py" := "stale"]> ∅).

End Scenario.

(** ** A graph with several vertices and edges

    The root document lists the vertices [b] (named Households),
    [organization], [a] (named People) and [b] once more; the entry vertex
    has the edges [list_people] to [a], [organization] to [organization],
    [list_households] to [b] and [list_people] to [a] once more.  Neither
    list is sorted, and both repeat an element. *)
Module Ordered.

Definition doc_url : string := Scenario.doc_url.

Definition root : RootDoc :=
  {| root_vertices :=
       [ {| stub_id := "b"; stub_name := "Households" |};
         {| stub_id := "organization"; stub_name := "Organization" |};
         {| stub_id := "a"; stub_name := "People" |};
         {| stub_id := "b"; stub_name := "Households" |} ];
     root_outbound_edges :=
       [ {| edge_name := "list_people"; edge_head := "a" |};
         {| edge_name := "organization"; edge_head := "organization" |};
         {| edge_name := "list_households"; edge_head := "b" |};
         {| edge_name := "list_people"; edge_head := "a" |} ] |}.

Definition vertex_b : VertexDoc :=
  {| vertex_id := "b";
     vertex_path := "https://api.planningcenteronline.com/people/v2/households";
     vertex_description := "A household" |}.

Definition world : World :=
  {| requests_get_root := λ _, root;
     requests_get_vertex := λ url,
       if decide (url = doc_url +:+ "/vertices/b") then vertex_b
       else Scenario.vertex_a;
     render_model := Scenario.render_models;
     render_endpoint := Scenario.render_endpoints;
     os_sep := "/" |}.

Definition households : ModelSpec :=
  {| model_name := "Households"; model_endpoint := "households";
     model_description := "A household" |}.

Definition people : ModelSpec :=
  {| model_name := "People"; model_endpoint := "people";
     model_description := "A person" |}.

Definition list_households : EndpointSpec :=
  {| endpoint_name := "ListHouseholds"; endpoint_description := "A household" |}.

Definition list_people : EndpointSpec :=
  {| endpoint_name := "ListPeople"; endpoint_description := "A person" |}.

End Ordered.

(** ** The command line (lines 33-42 and 249-281) *)

(** [PCO_DOC_URL_PATTERN.format(app=app, version=version)] *)
Definition PCO_DOC_URL_PATTERN_format (app version : string) : string :=
  "https://api.planningcenteronline.com/" +:+ app +:+ "/v2/documentation/"
    +:+ version.

Definition PCO_ALL_APPS : list string :=
  ["check-ins"; "giving"; "people"; "services"; "resources"; "webhooks"].

(** The dict [arguments] that [docopt] returns: an option that was not
    given is [None]; the two paths are required by both usage patterns.
    [--verbose] only sets the logging level and is left out. *)
Record Arguments : Type := {
  arg_doc_url : option string;
  arg_app : option string;
  arg_version : option string;
  arg_endpoint_path : string;
  arg_model_path : string
}.

(** The text [str.format] puts for a value of [arguments]. *)
Definition format_value (value : option string) : string :=
  match value with
  | Some s => s
  | None => "None"
  end.

(** [for x in l: body(x)] *)
Fixpoint for_each {S A} (l : list A) (body : A → M S unit) : M S unit :=
  match l with
  | [] => mret tt
  | x :: l' => body x;; for_each l' body
  end.

(** Lines 257-281, the body of [if __name__ == '__main__'] after the
    arguments are parsed.  [if arguments['--doc-url']] holds for a string
    that is not empty. *)
Definition main (w : World) (arguments : Arguments)
    : M (gmap string string) unit :=
  match arg_doc_url arguments with
  | Some (String c doc_url) =>
      generate w (String c doc_url)
        (arg_endpoint_path arguments) (arg_model_path arguments)
  | _ =>
      if decide (arg_app arguments ≠ Some "all") then
        generate w
          (PCO_DOC_URL_PATTERN_format (format_value (arg_app arguments))
             (format_value (arg_version arguments)))
          (arg_endpoint_path arguments) (arg_model_path arguments)
      else
        for_each PCO_ALL_APPS (λ app,
          generate w
            (PCO_DOC_URL_PATTERN_format app
               (format_value (arg_version arguments)))
            (arg_endpoint_path arguments) (arg_model_path arguments))
  end.

(** The world that answers [doc] for the vertex document at [url], and is
    [w] everywhere else. *)
Definition with_vertex_document (w : World) (url : string) (doc : VertexDoc)
    : World :=
  {| requests_get_root := requests_get_root w;
     requests_get_vertex := λ u,
       if decide (u = url) then doc else requests_get_vertex w u;
     render_model := render_model w;
     render_endpoint := render_endpoint w;
     os_sep := os_sep w |}.

(** A world for a run over all apps: the graph of [giving] has an edge
    whose head was never fetched, every other graph is that of the
    scenario. *)
Module AllApps.

Definition giving_url : string :=
  PCO_DOC_URL_PATTERN_format "giving" "2018-08-01".

Definition world : World :=
  {| requests_get_root := λ url,
       if decide (url = giving_url) then Scenario.dangling_root
       else Scenario.root;
     requests_get_vertex := λ _, Scenario.vertex_a;
     render_model := Scenario.render_models;
     render_endpoint := Scenario.render_endpoints;
     os_sep := "/" |}.

Definition arguments : Arguments :=
  {| arg_doc_url := None;
     arg_app := Some "all";
     arg_version := Some "2018-08-01";
     arg_endpoint_path := "endpoints";
     arg_model_path := "models" |}.

End AllApps.

(** * Properties *)

(** ** Python lists *)

Section PyFacts.
Context {A : Type}.
Implicit Types (l : list A) (x : A) (i : Z).

Lemma position_nat l (n : nat) :
  (n < length l)%nat → Py.position l (Z.of_nat n) = Some n.
Proof.
  intros Hn. unfold Py.position.
  destruct (Z.ltb_spec (Z.of_nat n) 0) as [?|_]; [lia|].
  destruct (Z.ltb_spec (Z.of_nat n) 0) as [?|_]; [lia|].
  destruct (Z.leb_spec (Z.of_nat (length l)) (Z.of_nat n)) as [?|_]; [lia|].
  simpl. by rewrite Nat2Z.id.
Qed.

Lemma position_nat_ge l (n : nat) :
  (length l ≤ n)%nat → Py.position l (Z.of_nat n) = None.
Proof.
  intros Hn. unfold Py.position.
  destruct (Z.ltb_spec (Z.of_nat n) 0) as [?|_]; [lia|].
  destruct (Z.ltb_spec (Z.of_nat n) 0) as [?|_]; [lia|].
  destruct (Z.leb_spec (Z.of_nat (length l)) (Z.of_nat n)) as [_|?]; [done|lia].
Qed.

Lemma position_minus_one l x :
  Py.position (l ++ [x]) (-1) = Some (length l).
Proof.
  unfold Py.position. rewrite length_app. simpl.
  replace (-1 + Z.of_nat (length l + 1))%Z with (Z.of_nat (length l)) by lia.
  destruct (Z.ltb_spec (Z.of_nat (length l)) 0) as [?|_]; [lia|].
  destruct (Z.leb_spec (Z.of_nat (length l + 1)) (Z.of_nat (length l))) as [?|_];
    [lia|].
  simpl. by rewrite Nat2Z.id.
Qed.

Lemma getitem_nat l (n : nat) x :
  l !! n = Some x → Py.getitem l (Z.of_nat n) = Returns x.
Proof.
  intros Hx. unfold Py.getitem.
  rewrite position_nat by (by eapply lookup_lt_Some). by rewrite Hx.
Qed.

Lemma getitem_nat_ge l (n : nat) :
  (length l ≤ n)%nat → Py.getitem l (Z.of_nat n) = Raises IndexError.
Proof. intros Hn. unfold Py.getitem. by rewrite position_nat_ge. Qed.

(** [l[-1]] is the last element *)
Lemma getitem_minus_one l x : Py.getitem (l ++ [x]) (-1) = Returns x.
Proof.
  unfold Py.getitem. rewrite position_minus_one.
  by rewrite list_lookup_middle.
Qed.

Lemma getitem_minus_one_last l x :
  last l = Some x → Py.getitem l (-1) = Returns x.
Proof.
  intros [l' ->]%last_Some. apply getitem_minus_one.
Qed.

Lemma setitem_nat l (n : nat) x :
  (n < length l)%nat → Py.setitem l (Z.of_nat n) x = Returns (<[n:=x]> l).
Proof. intros Hn. unfold Py.setitem. by rewrite position_nat. Qed.

Lemma delitem_nat l (n : nat) :
  (n < length l)%nat → Py.delitem l (Z.of_nat n) = Returns (delete n l).
Proof. intros Hn. unfold Py.delitem. by rewrite position_nat. Qed.

Context `{EqDecision A}.

Lemma find_None l x : Py.find x l = None ↔ x ∉ l.
Proof.
  induction l as [|y l IH]; simpl.
  - split; [intros _; apply not_elem_of_nil | done].
  - rewrite not_elem_of_cons. destruct (decide (y = x)) as [->|Hne].
    + split; [done | intros [? _]; done].
    + rewrite fmap_None, IH. intuition congruence.
Qed.

(** the search stops at the first occurrence *)
Lemma find_app l x l' : x ∉ l → Py.find x (l ++ x :: l') = Some (length l).
Proof.
  induction l as [|y l IH]; simpl; intros Hx.
  - by rewrite decide_True.
  - apply not_elem_of_cons in Hx as [Hne Hx].
    rewrite decide_False by done. by rewrite IH.
Qed.

Lemma find_Some l x (n : nat) :
  Py.find x l = Some n → ∃ l1 l2, l = l1 ++ x :: l2 ∧ (x ∉ l1) ∧ length l1 = n.
Proof.
  revert n. induction l as [|y l IH]; simpl; intros n; [done|].
  destruct (decide (y = x)) as [->|Hne].
  - intros [= <-]. exists [], l. split_and!; [done | apply not_elem_of_nil | done].
  - destruct (Py.find x l) as [m|] eqn:Hm; simpl; [|done].
    intros [= <-]. destruct (IH m eq_refl) as (l1 & l2 & -> & Hx & <-).
    exists (y :: l1), l2. split_and!; [done | | done].
    apply not_elem_of_cons. by split.
Qed.

Lemma index_app l x l' :
  x ∉ l → Py.index (l ++ x :: l') x = Returns (Z.of_nat (length l)).
Proof. intros Hx. unfold Py.index. by rewrite find_app. Qed.

Lemma index_absent l x : x ∉ l → Py.index l x = Raises ValueError.
Proof. intros Hx. unfold Py.index. by rewrite (proj2 (find_None l x) Hx). Qed.

Lemma index_Returns l x i :
  Py.index l x = Returns i →
  ∃ l1 l2, l = l1 ++ x :: l2 ∧ (x ∉ l1) ∧ i = Z.of_nat (length l1).
Proof.
  unfold Py.index. destruct (Py.find x l) as [n|] eqn:Hn; [|done].
  intros [= <-]. destruct (find_Some _ _ _ Hn) as (l1 & l2 & -> & ? & <-).
  by exists l1, l2.
Qed.
End PyFacts.

Lemma split_not_nil sep s : Py.split sep s ≠ [].
Proof.
  destruct s as [|c s]; simpl; [done|].
  destruct (decide (c = sep)); [done|]. by destruct (Py.split sep s).
Qed.

Lemma getitem_minus_one_split sep s :
  ∃ seg, last (Py.split sep s) = Some seg ∧
         Py.getitem (Py.split sep s) (-1) = Returns seg.
Proof.
  destruct (last (Py.split sep s)) as [seg|] eqn:Hlast.
  - exists seg. split; [done|]. by apply getitem_minus_one_last.
  - apply last_None in Hlast. by apply split_not_nil in Hlast.
Qed.

(** ** The app resolver (lines 111-112) *)

Lemma generate_app_at pre rest doc_url :
  Py.split "/" doc_url = pre ++ "v2" :: rest → "v2" ∉ pre →
  generate_app doc_url =
  Py.getitem (Py.split "/" doc_url) (Z.of_nat (length pre) - 1).
Proof.
  intros Hsplit Hpre. unfold generate_app. rewrite Hsplit.
  by rewrite index_app.
Qed.





(** C6, as the specification states it, fails: for a URL without a [v2]
    segment the resolver raises the [ValueError] of [list.index]; no
    [MalformedURL] error exists in the code. *)
Lemma generate_app_not_MalformedURL :
  ("v2" ∉ Py.split "/" "https://api.planningcenteronline.com/people/documentation") ∧
  ¬ ∃ e, generate_app "https://api.planningcenteronline.com/people/documentation"
           = Raises e ∧ class_name e = "MalformedURL".
Proof.
  split.
  - apply (proj1 (find_None _ _)). reflexivity.
  - intros (e & He & Hname). vm_compute in He. injection He as <-. discriminate.
Qed.

(** C6, amended.  The app resolver fails if and only if [v2] is absent from
    the segments of the documentation URL, and the failure is the
    [ValueError] of [list.index]; when [v2] is present it returns, and when
    a segment precedes the first [v2] it returns that segment. *)
Theorem generate_app_spec doc_url :
  (∀ e, generate_app doc_url = Raises e ↔
        ("v2" ∉ Py.split "/" doc_url) ∧ e = ValueError) ∧
  ("v2" ∈ Py.split "/" doc_url → ∃ app, generate_app doc_url = Returns app) ∧
  (∀ pre seg rest,
     Py.split "/" doc_url = pre ++ seg :: "v2" :: rest →
     "v2" ∉ pre → seg ≠ "v2" →
     generate_app doc_url = Returns seg).
Proof.
  assert (Hin : "v2" ∈ Py.split "/" doc_url →
                ∃ app, generate_app doc_url = Returns app).
  { intros (pre & rest & Hsplit & Hpre)%list_elem_of_split_l.
    rewrite (generate_app_at pre rest) by done.
    destruct pre as [|seg pre' _] using rev_ind.
    - change (Z.of_nat (length (@nil string)) - 1)%Z with (-1)%Z.
      destruct (getitem_minus_one_split "/" doc_url) as (seg & _ & ->).
      by exists seg.
    - exists seg. rewrite Hsplit, length_app. simpl.
      replace (Z.of_nat (length pre' + 1) - 1)%Z with (Z.of_nat (length pre'))
        by lia.
      apply getitem_nat. rewrite <- app_assoc. by apply list_lookup_middle. }
  split_and!.
  - intros e. split.
    + intros He. destruct (decide ("v2" ∈ Py.split "/" doc_url)) as [Hv2|Hv2].
      * destruct (Hin Hv2) as [app Happ]. congruence.
      * split; [done|]. unfold generate_app in He.
        rewrite index_absent in He by done. by injection He.
    + intros [Hv2 ->]. unfold generate_app. by rewrite index_absent.
  - exact Hin.
  - intros pre seg rest Hsplit Hpre Hseg.
    rewrite (generate_app_at (pre ++ [seg]) rest).
    + rewrite length_app. simpl.
      replace (Z.of_nat (length pre + 1) - 1)%Z with (Z.of_nat (length pre))
        by lia.
      apply getitem_nat. rewrite Hsplit. by apply list_lookup_middle.
    + by rewrite <- app_assoc.
    + rewrite not_elem_of_app, not_elem_of_cons. split_and!; try done.
      apply not_elem_of_nil.
Qed.

Lemma generate_app_spec_witness :
  generate_app "https://api.planningcenteronline.com/check-ins/v2/documentation"
  = Returns "check-ins" ∧
  generate_app "https://api.planningcenteronline.com/documentation"
  = Raises ValueError.
Proof.
  split.
  - apply (proj2 (proj2 (generate_app_spec
      "https://api.planningcenteronline.com/check-ins/v2/documentation"))
      ["https:"; ""; "api.planningcenteronline.com"] "check-ins"
      ["documentation"]).
    + reflexivity.
    + apply (proj1 (find_None _ _)). reflexivity.
    + discriminate.
  - apply (proj1 (generate_app_spec
      "https://api.planningcenteronline.com/documentation")).
    split; [|reflexivity]. apply (proj1 (find_None _ _)). reflexivity.
Defined.

(** ** The endpoint of a model (lines 151-156) *)

(** C1, as the specification states it, fails: a path may have a segment
    after its first [v2] and end at a later [v2]; the test [path[-1] == 'v2']
    comes first, and the endpoint is the empty string, not the segment after
    the first [v2]. *)
Lemma generate_endpoint_field_repeated_v2 :
  Py.split "/" "https://api.planningcenteronline.com/people/v2/people/v2" =
    ["https:"; ""; "api.planningcenteronline.com"; "people"]
      ++ "v2" :: "people" :: ["v2"] ∧
  ("v2" ∉ ["https:"; ""; "api.planningcenteronline.com"; "people"]) ∧
  generate_endpoint_field "https://api.planningcenteronline.com/people/v2/people/v2"
    = Returns "" ∧
  generate_endpoint_field "https://api.planningcenteronline.com/people/v2/people/v2"
    ≠ Returns "people".
Proof.
  split_and!; [reflexivity | | reflexivity | discriminate].
  apply (proj1 (find_None _ _)). reflexivity.
Qed.

(** C1, amended.  When the path of a vertex document, split on [/], ends at
    the segment [v2], the endpoint of the model is the empty string; when
    the path holds [v2] and does not end at [v2], it is the segment
    immediately after the first occurrence of [v2]. *)
Theorem generate_endpoint_field_spec vertex_path :
  (last (Py.split "/" vertex_path) = Some "v2" →
   generate_endpoint_field vertex_path = Returns "") ∧
  (∀ pre nxt rest,
     Py.split "/" vertex_path = pre ++ "v2" :: nxt :: rest →
     "v2" ∉ pre →
     last (Py.split "/" vertex_path) ≠ Some "v2" →
     generate_endpoint_field vertex_path = Returns nxt).
Proof.
  unfold generate_endpoint_field.
  destruct (getitem_minus_one_split "/" vertex_path) as (seg & Hlast & ->).
  simpl. split.
  - rewrite Hlast. intros [= ->]. by rewrite decide_True.
  - intros pre nxt rest Hsplit Hpre Hne.
    rewrite decide_False by congruence.
    rewrite Hsplit, index_app by done. simpl.
    replace (Z.of_nat (length pre) + 1)%Z with (Z.of_nat (length (pre ++ ["v2"])))
      by (rewrite length_app; simpl; lia).
    apply getitem_nat.
    change (pre ++ "v2" :: nxt :: rest) with (pre ++ ["v2"] ++ nxt :: rest).
    rewrite app_assoc. by apply list_lookup_middle.
Qed.

Lemma generate_endpoint_field_spec_witness :
  generate_endpoint_field "https://api.planningcenteronline.com/people/v2" = Returns "" ∧
  generate_endpoint_field "https://api.planningcenteronline.com/people/v2/people/1/emails"
  = Returns "people".
Proof.
  split.
  - apply (proj1 (generate_endpoint_field_spec
      "https://api.planningcenteronline.com/people/v2")). reflexivity.
  - apply (proj2 (generate_endpoint_field_spec
      "https://api.planningcenteronline.com/people/v2/people/1/emails")
      ["https:"; ""; "api.planningcenteronline.com"; "people"] "people"
      ["1"; "emails"]).
    + reflexivity.
    + apply (proj1 (find_None _ _)). reflexivity.
    + discriminate.
Defined.

(** ** The name formatter (lines 224-247) *)

(** One iteration of the loop: the search fails, or the delimiter found was
    the last element, or the element after it is uppercased in its place. *)
Lemma camelcase_body_unfold repl_char (string : list string) :
  camelcase_body repl_char string =
  match Py.find repl_char string with
  | None => (Raises ValueError, string)
  | Some ndx =>
      match delete ndx string !! ndx with
      | None => (Raises IndexError, delete ndx string)
      | Some c => (Returns tt, <[ndx := Py.upper c]> (delete ndx string))
      end
  end.
Proof.
  unfold camelcase_body, mbind, M_bind, get, put, lift, Py.index.
  destruct (Py.find repl_char string) as [ndx|] eqn:Hfind; [|done].
  destruct (find_Some _ _ _ Hfind) as (l1 & l2 & -> & _ & <-).
  rewrite delitem_nat by (rewrite length_app; simpl; lia).
  destruct (delete (length l1) (l1 ++ repl_char :: l2) !! length l1)
    as [c|] eqn:Hc.
  - rewrite (getitem_nat _ _ _ Hc).
    by rewrite setitem_nat by (by eapply lookup_lt_Some).
  - by rewrite getitem_nat_ge by (by apply lookup_ge_None).
Qed.

(** The loop ends, and only by the [ValueError] of the search or by the
    [IndexError] of a delimiter at the end of the list. *)
Lemma while_true_camelcase_ends repl_char fuel (string : list string) :
  (length string < fuel)%nat →
  ∃ e string',
    while_true fuel (camelcase_body repl_char) string = (Raises e, string') ∧
    (e = ValueError ∨ e = IndexError).
Proof.
  revert string. induction fuel as [|fuel IH]; intros string Hfuel; [lia|].
  simpl. unfold mbind, M_bind. rewrite camelcase_body_unfold.
  destruct (Py.find repl_char string) as [ndx|] eqn:Hfind; [|by eauto].
  destruct (find_Some _ _ _ Hfind) as (l1 & l2 & -> & _ & <-).
  rewrite delete_middle.
  destruct ((l1 ++ l2) !! length l1) as [c|]; [|by eauto].
  apply IH. rewrite length_insert. rewrite !length_app in *. simpl in *. lia.
Qed.

Lemma length_list_of s : length (Py.list_of s) = String.length s.
Proof. induction s as [|c s IH]; simpl; by f_equal. Qed.

Lemma join_list_of s : Py.join (Py.list_of s) = s.
Proof. induction s as [|c s IH]; simpl; by f_equal. Qed.

(** The formatter on a non-empty string: the first character is uppercased
    and the loop runs on the list. *)
Lemma underscore_to_camelcase_cons c s repl_char :
  _underscore_to_camelcase (String c s) repl_char =
  match while_true (S (S (String.length s))) (camelcase_body repl_char)
          (Py.list_of (String (Py.upper_ascii c) s)) with
  | (Raises ValueError, string) => Returns (Py.join string)
  | (Raises e, _) => Raises e
  | (Returns _, string) => Returns (Py.join string)
  | (OutOfFuel, _) => OutOfFuel
  end.
Proof.
  unfold _underscore_to_camelcase, underscore_to_camelcase_fuel.
  unfold mbind, M_bind, mret, M_ret, get, put, lift, try_except.
  change (Py.list_of (String c s)) with (String c "" :: Py.list_of s).
  change (Py.getitem (String c "" :: Py.list_of s) 0)
    with (Returns (A:=string) (String c "")).
  cbv beta iota.
  change (Py.setitem (String c "" :: Py.list_of s) 0 (Py.upper (String c "")))
    with (Returns (Py.list_of (String (Py.upper_ascii c) s))).
  cbv beta iota.
  change (String.length (String c s)) with (S (String.length s)).
  destruct (while_true _ _ _) as [[[]|[]|] string]; reflexivity.
Qed.

(** The formatter never runs out of fuel, and [IndexError] is the only
    exception that leaves it. *)
Lemma underscore_to_camelcase_total s repl_char :
  (∃ r, _underscore_to_camelcase s repl_char = Returns r) ∨
  _underscore_to_camelcase s repl_char = Raises IndexError.
Proof.
  destruct s as [|c s]; [by right|].
  rewrite underscore_to_camelcase_cons.
  destruct (while_true_camelcase_ends repl_char (S (S (String.length s)))
              (Py.list_of (String (Py.upper_ascii c) s)))
    as (e & string' & -> & [->| ->]).
  - rewrite length_list_of. simpl. lia.
  - left. by eexists.
  - by right.
Qed.

(** *** The formatter against the pascal-case form

    for a delimiter that [upper] leaves alone and that is not the uppercase
    of another character: the underscore and the dash are such. *)

Section Pascal.
Variable d : ascii.
Hypothesis upper_d : Py.upper_ascii d = d.
Hypothesis upper_to_d : ∀ c, Py.upper_ascii c = d → c = d.

Lemma upper_ascii_idemp c : Py.upper_ascii (Py.upper_ascii c) = Py.upper_ascii c.
Proof. by destruct c as [[] [] [] [] [] [] [] []]. Qed.

Lemma upper_is_d c : Py.upper_ascii c = d ↔ c = d.
Proof. split; [apply upper_to_d | by intros ->]. Qed.

Lemma pascal_from_upper c s :
  pascal_from d true (String c s) = pascal_from d false (String (Py.upper_ascii c) s).
Proof.
  simpl. destruct (decide (c = d)) as [->|Hc].
  - by rewrite upper_d, decide_True.
  - rewrite decide_False; [done|]. by rewrite upper_is_d.
Qed.

Lemma endswith_upper c s :
  Py.endswith d (String (Py.upper_ascii c) s) = Py.endswith d (String c s).
Proof.
  destruct s; simpl; [|done].
  apply bool_decide_ext, upper_is_d.
Qed.

Lemma endswith_other c s : c ≠ d → Py.endswith d (String c s) = Py.endswith d s.
Proof. intros Hc. destruct s; simpl; [|done]. by rewrite bool_decide_false. Qed.

(** The loop on a list whose front [l1] holds no delimiter: it ends with
    the pascal-case form of the rest in place, by the [ValueError] of the
    search, or by an [IndexError] when the rest ends with the delimiter. *)
Lemma while_true_camelcase_pascal n :
  ∀ s, (String.length s ≤ n)%nat →
  ∀ fuel (l1 : list string), (String.length s < fuel)%nat →
  String d "" ∉ l1 →
  while_true fuel (camelcase_body (String d "")) (l1 ++ Py.list_of s) =
  (Raises (if Py.endswith d s then IndexError else ValueError),
   l1 ++ Py.list_of (pascal_from d false s)).
Proof.
  induction n as [|n IH]; intros [|c s] Hn fuel l1 Hfuel Hl1;
    simpl in Hn, Hfuel; try lia.
  - destruct fuel as [|fuel]; [lia|]. simpl.
    unfold mbind, M_bind. rewrite camelcase_body_unfold.
    by rewrite (proj2 (find_None _ _)) by (by rewrite app_nil_r).
  - destruct fuel as [|fuel]; [lia|]. simpl.
    unfold mbind, M_bind. rewrite camelcase_body_unfold.
    by rewrite (proj2 (find_None _ _)) by (by rewrite app_nil_r).
  - destruct (decide (c = d)) as [->|Hc].
    + destruct fuel as [|fuel]; [lia|].
      change (while_true (S fuel) ?b ?st)
        with (match b st with
              | (Returns a, s') => while_true fuel b s'
              | (Raises e, s') => (Raises e, s')
              | (OutOfFuel, s') => (OutOfFuel, s')
              end).
      rewrite camelcase_body_unfold.
      change (Py.list_of (String d s)) with (String d "" :: Py.list_of s).
      rewrite find_app, delete_middle by done.
      destruct s as [|c' s].
      * rewrite lookup_ge_None_2 by (simpl; rewrite app_nil_r; lia).
        simpl. by rewrite bool_decide_true, decide_True.
      * change (Py.list_of (String c' s)) with (String c' "" :: Py.list_of s).
        rewrite list_lookup_middle by done.
        rewrite insert_app_r_alt, Nat.sub_diag by lia.
        change (<[0:=Py.upper (String c' "")]> (String c' "" :: Py.list_of s))
          with (Py.list_of (String (Py.upper_ascii c') s)).
        rewrite (IH (String (Py.upper_ascii c') s)) by (simpl in *; done || lia).
        rewrite endswith_upper.
        change (pascal_from d false (String d (String c' s)))
          with (if decide (d = d) then pascal_from d true (String c' s)
                else String d (pascal_from d false (String c' s))).
        by rewrite decide_True, pascal_from_upper.
    + assert (String d "" ∉ l1 ++ [String c ""]) as Hl1'.
      { rewrite not_elem_of_app, list_elem_of_singleton. split; congruence. }
      change (Py.list_of (String c s)) with ([String c ""] ++ Py.list_of s).
      rewrite app_assoc, (IH s) by (lia || done).
      rewrite endswith_other by done. simpl.
      by rewrite decide_False, <- app_assoc.
Qed.

(** On a non-empty identifier the formatter returns the pascal-case form,
    unless the identifier ends with the delimiter: then the [IndexError]
    of [string[under_ndx]] leaves it. *)
Lemma underscore_to_camelcase_pascal c s :
  _underscore_to_camelcase (String c s) (String d "") =
  if Py.endswith d (String c s) then Raises IndexError
  else Returns (pascal_case d (String c s)).
Proof.
  rewrite underscore_to_camelcase_cons.
  rewrite <- (app_nil_l (Py.list_of _)).
  rewrite (while_true_camelcase_pascal (S (String.length s)))
    by (simpl; lia || apply not_elem_of_nil).
  rewrite endswith_upper.
  destruct (Py.endswith d (String c s)); [done|].
  rewrite app_nil_l, join_list_of. unfold pascal_case.
  by rewrite pascal_from_upper.
Qed.
End Pascal.

Lemma upper_underscore c : Py.upper_ascii c = "_"%char → c = "_"%char.
Proof. by destruct c as [[] [] [] [] [] [] [] []]. Qed.

Lemma upper_dash c : Py.upper_ascii c = "-"%char → c = "-"%char.
Proof. by destruct c as [[] [] [] [] [] [] [] []]. Qed.

(** With the two delimiters of the generator, on every non-empty identifier
    that does not end with the delimiter, the formatter returns the
    pascal-case form. *)
Lemma name_formatter_pascal (d : ascii) s :
  d = "_"%char ∨ d = "-"%char → s ≠ "" → Py.endswith d s = false →
  _underscore_to_camelcase s (String d "") = Returns (pascal_case d s).
Proof.
  intros Hd Hs Hend. destruct s as [|c s]; [done|].
  destruct Hd as [-> | ->].
  - rewrite (underscore_to_camelcase_pascal "_") by (done || apply upper_underscore).
    by rewrite Hend.
  - rewrite (underscore_to_camelcase_pascal "-") by (done || apply upper_dash).
    by rewrite Hend.
Qed.

(** ** The two loops of [generate] *)

Lemma bind_Returns {A B} (a : A) (f : A → outcome B) : Returns a ≫= f = f a.
Proof. reflexivity. Qed.

Lemma bind_Raises {A B} e (f : A → outcome B) : Raises e ≫= f = Raises e.
Proof. reflexivity. Qed.

Lemma bind_OutOfFuel {A B} (f : A → outcome B) : OutOfFuel ≫= f = OutOfFuel.
Proof. reflexivity. Qed.

Lemma mret_Returns {A} (a : A) : mret a = Returns a.
Proof. reflexivity. Qed.

Lemma mapM_cons {A B} (f : A → outcome B) x l :
  mapM f (x :: l) = (y ← f x; k ← mapM f l; mret (y :: k)).
Proof. reflexivity. Qed.

Ltac outcome_simpl :=
  rewrite ?bind_Returns, ?bind_Raises, ?bind_OutOfFuel.

Lemma mapM_Returns {A B} (f : A → outcome B) l k :
  mapM f l = Returns k ↔ Forall2 (λ x y, f x = Returns y) l k.
Proof.
  split.
  - revert k. induction l as [|x l IH]; intros k.
    + intros [= <-]. constructor.
    + rewrite mapM_cons. destruct (f x) as [y| |] eqn:Hy; outcome_simpl; try done.
      destruct (mapM f l) as [k'| |]; outcome_simpl; try done.
      intros [= <-]. constructor; auto.
  - induction 1 as [|x y l k Hy _ IH]; [done|].
    rewrite mapM_cons, Hy, IH. by outcome_simpl.
Qed.

Section GenerateFacts.
Variable w : World.

Abbreviation kept_vertices :=
  (filter (λ vertex : VertexStub, stub_id vertex ≠ "organization")).
Abbreviation kept_edges :=
  (filter (λ edge : Edge, edge_head edge ≠ "organization")).

Lemma model_of_eq doc_url vertex :
  model_of w doc_url vertex =
  (endpoint ← generate_endpoint_field
                (vertex_path (fetch_vertex w doc_url vertex));
   Returns {| model_name := stub_name vertex;
              model_endpoint := endpoint;
              model_description :=
                vertex_description (fetch_vertex w doc_url vertex) |}).
Proof. reflexivity. Qed.

Lemma endpoint_of_eq description_dict edge :
  endpoint_of description_dict edge =
  (name ← _underscore_to_camelcase (edge_name edge) "_";
   description ← dict_getitem description_dict (edge_head edge);
   Returns {| endpoint_name := name; endpoint_description := description |}).
Proof. reflexivity. Qed.

(** The loop over [vertices] appends, in order, the model of every vertex
    other than [organization], and records its description. *)
Lemma generate_models_mapM doc_url vertices models description_dict :
  generate_models w doc_url vertices models description_dict =
  (new ← mapM (model_of w doc_url) (kept_vertices vertices);
   mret (models ++ new,
         foldl (record_description w doc_url) description_dict
               (kept_vertices vertices))).
Proof.
  revert models description_dict.
  induction vertices as [|vertex vertices IH]; intros models description_dict.
  - simpl. by rewrite app_nil_r.
  - simpl generate_models.
    destruct (decide (stub_id vertex = "organization")) as [Horg|Horg].
    + rewrite filter_cons_False by (by intros ?). apply IH.
    + rewrite filter_cons_True by done.
      rewrite mapM_cons, model_of_eq.
      destruct (generate_endpoint_field _) as [endpoint| |];
        outcome_simpl; try done.
      rewrite getitem_minus_one. outcome_simpl. rewrite IH. simpl foldl.
      destruct (mapM _ _) as [new| |]; outcome_simpl; try done.
      unfold mret, outcome_ret. by rewrite <- app_assoc.
Qed.

(** The loop over [outbound_edges] appends, in order, the endpoint of
    every edge whose head is not [organization]. *)
Lemma generate_endpoints_mapM description_dict outbound_edges endpoints :
  generate_endpoints description_dict outbound_edges endpoints =
  (new ← mapM (endpoint_of description_dict) (kept_edges outbound_edges);
   mret (endpoints ++ new)).
Proof.
  revert endpoints.
  induction outbound_edges as [|edge outbound_edges IH]; intros endpoints.
  - simpl. by rewrite app_nil_r.
  - simpl generate_endpoints.
    destruct (decide (edge_head edge = "organization")) as [Horg|Horg].
    + rewrite filter_cons_False by (by intros ?). apply IH.
    + rewrite filter_cons_True by done.
      rewrite mapM_cons, endpoint_of_eq.
      destruct (_underscore_to_camelcase _ _) as [name| |];
        outcome_simpl; try done.
      destruct (dict_getitem _ _) as [description| |];
        outcome_simpl; try done.
      rewrite IH.
      destruct (mapM _ _) as [new| |]; outcome_simpl; try done.
      unfold mret, outcome_ret. by rewrite <- app_assoc.
Qed.

(** [generate], step by step. *)
Lemma generate_unfold doc_url endpoint_path model_path fs :
  generate w doc_url endpoint_path model_path fs =
  match generate_app doc_url with
  | Returns app =>
      match generate_models w doc_url
              (root_vertices (requests_get_root w doc_url)) [] ∅ with
      | Returns (models, description_dict) =>
          match _underscore_to_camelcase app "-" with
          | Returns app_name =>
              match generate_endpoints description_dict
                      (root_outbound_edges (requests_get_root w doc_url)) [] with
              | Returns endpoints =>
                  (Returns tt,
                   <[output_file w endpoint_path app :=
                       render_endpoint w app_name endpoints]>
                     (<[output_file w model_path app :=
                          render_model w app_name models]> fs))
              | Raises e =>
                  (Raises e,
                   <[output_file w model_path app :=
                       render_model w app_name models]> fs)
              | OutOfFuel =>
                  (OutOfFuel,
                   <[output_file w model_path app :=
                       render_model w app_name models]> fs)
              end
          | Raises e => (Raises e, fs)
          | OutOfFuel => (OutOfFuel, fs)
          end
      | Raises e => (Raises e, fs)
      | OutOfFuel => (OutOfFuel, fs)
      end
  | Raises e => (Raises e, fs)
  | OutOfFuel => (OutOfFuel, fs)
  end.
Proof.
  unfold generate, mbind, M_bind, lift, write_file.
  destruct (generate_app doc_url) as [app| |]; try done.
  destruct (generate_models _ _ _ _ _) as [[models description_dict]| |];
    try done.
  destruct (_underscore_to_camelcase app "-") as [app_name| |]; done.
Qed.
End GenerateFacts.

Lemma filter_idemp {A} (P : A → Prop) `{!∀ x, Decision (P x)} (l : list A) :
  filter P (filter P l) = filter P l.
Proof.
  induction l as [|x l IH]; [done|].
  destruct (decide (P x)) as [HP|HP].
  - by rewrite (filter_cons_True P x l), filter_cons_True, IH.
  - by rewrite (filter_cons_False P x l).
Qed.

(** When a run of [generate] returns, both loops went through, and the two
    files hold the renderings of the two lists. *)
Lemma generate_Returns_inv w doc_url endpoint_path model_path fs fs' :
  generate w doc_url endpoint_path model_path fs = (Returns tt, fs') →
  ∃ app app_name models endpoints,
    generate_app doc_url = Returns app ∧
    _underscore_to_camelcase app "-" = Returns app_name ∧
    mapM (model_of w doc_url)
      (filter (λ vertex, stub_id vertex ≠ "organization")
         (root_vertices (requests_get_root w doc_url))) = Returns models ∧
    mapM (endpoint_of
            (foldl (record_description w doc_url) ∅
               (filter (λ vertex, stub_id vertex ≠ "organization")
                  (root_vertices (requests_get_root w doc_url)))))
      (filter (λ edge, edge_head edge ≠ "organization")
         (root_outbound_edges (requests_get_root w doc_url))) = Returns endpoints ∧
    fs' = <[output_file w endpoint_path app := render_endpoint w app_name endpoints]>
            (<[output_file w model_path app := render_model w app_name models]> fs).
Proof.
  rewrite generate_unfold, generate_models_mapM.
  destruct (generate_app doc_url) as [app| |] eqn:Happ; try done.
  destruct (mapM (model_of w doc_url) _) as [models| |] eqn:Hm;
    outcome_simpl; try done.
  rewrite mret_Returns, app_nil_l. cbv iota.
  destruct (_underscore_to_camelcase app "-") as [app_name| |] eqn:Hname;
    try done.
  rewrite generate_endpoints_mapM.
  destruct (mapM (endpoint_of _) _) as [endpoints| |] eqn:He;
    outcome_simpl; try done.
  rewrite mret_Returns, app_nil_l. cbv iota. intros [= <-].
  by exists app, app_name, models, endpoints.
Qed.

(** C3.  A run of [generate] returns exactly when the app resolves and
    formats, every vertex other than [organization] yields a model and every
    edge whose head is not [organization] yields an endpoint; the list
    [models] then holds the models of those vertices in the order of the
    root document, and the list [endpoints] the endpoints of those edges in
    the order of the entry vertex: one entry each, nothing sorted, nothing
    merged. *)
Theorem generate_preserves_order w doc_url endpoint_path model_path fs fs' :
  generate w doc_url endpoint_path model_path fs = (Returns tt, fs') ↔
  ∃ app app_name models endpoints,
    generate_app doc_url = Returns app ∧
    _underscore_to_camelcase app "-" = Returns app_name ∧
    Forall2 (λ vertex m, model_of w doc_url vertex = Returns m)
      (filter (λ vertex, stub_id vertex ≠ "organization")
         (root_vertices (requests_get_root w doc_url))) models ∧
    Forall2 (λ edge p,
               endpoint_of
                 (foldl (record_description w doc_url) ∅
                    (filter (λ vertex, stub_id vertex ≠ "organization")
                       (root_vertices (requests_get_root w doc_url))))
                 edge = Returns p)
      (filter (λ edge, edge_head edge ≠ "organization")
         (root_outbound_edges (requests_get_root w doc_url))) endpoints ∧
    fs' = <[output_file w endpoint_path app := render_endpoint w app_name endpoints]>
            (<[output_file w model_path app := render_model w app_name models]> fs).
Proof.
  split.
  - intros (app & app_name & models & endpoints & ? & ? & Hm & He & ?)
      %generate_Returns_inv.
    exists app, app_name, models, endpoints.
    by rewrite <- !mapM_Returns.
  - intros (app & app_name & models & endpoints & Happ & Hname & Hm & He & ->).
    apply mapM_Returns in Hm, He.
    rewrite generate_unfold, Happ, generate_models_mapM, Hm. outcome_simpl.
    rewrite mret_Returns, app_nil_l. cbv iota. rewrite Hname.
    rewrite generate_endpoints_mapM, He. outcome_simpl.
    by rewrite mret_Returns, app_nil_l.
Qed.

Lemma generate_preserves_order_witness :
  generate Ordered.world Ordered.doc_url "endpoints" "models" ∅ =
  (Returns tt,
   <["endpoints/people.py" :=
       "PeopleEndpoint ListPeople ListHouseholds ListPeople"]>
     (<["models/people.py" :=
          "PeopleModel Households=households People=people Households=households"]>
        ∅)) ∧
  Forall2 (λ vertex m, model_of Ordered.world Ordered.doc_url vertex = Returns m)
    (filter (λ vertex, stub_id vertex ≠ "organization")
       (root_vertices Ordered.root))
    [Ordered.households; Ordered.people; Ordered.households] ∧
  Forall2 (λ edge p,
             endpoint_of
               (foldl (record_description Ordered.world Ordered.doc_url) ∅
                  (filter (λ vertex, stub_id vertex ≠ "organization")
                     (root_vertices Ordered.root)))
               edge = Returns p)
    (filter (λ edge, edge_head edge ≠ "organization")
       (root_outbound_edges Ordered.root))
    [Ordered.list_people; Ordered.list_households; Ordered.list_people].
Proof.
  assert (generate Ordered.world Ordered.doc_url "endpoints" "models" ∅ =
          (Returns tt,
           <["endpoints/people.py" :=
               "PeopleEndpoint ListPeople ListHouseholds ListPeople"]>
             (<["models/people.py" :=
                  "PeopleModel Households=households People=people Households=households"]>
                ∅))) as Hrun by (vm_compute; reflexivity).
  split; [exact Hrun|].
  destruct (proj1 (generate_preserves_order Ordered.world Ordered.doc_url
                     "endpoints" "models" ∅ _) Hrun)
    as (app & app_name & models & endpoints & _ & _ & Hmodels & Hendpoints & _).
  assert (models = [Ordered.households; Ordered.people; Ordered.households])
    as <-.
  { apply mapM_Returns in Hmodels. vm_compute in Hmodels. by injection Hmodels. }
  assert (endpoints
          = [Ordered.list_people; Ordered.list_households; Ordered.list_people])
    as <-.
  { apply mapM_Returns in Hendpoints. vm_compute in Hendpoints.
    by injection Hendpoints. }
  by split.
Defined.

(** ** The [organization] vertex *)

Lemma Forall2_filter_origin {A B} (P : A → Prop) `{!∀ x, Decision (P x)}
    (R : A → B → Prop) (l : list A) (k : list B) :
  Forall2 R (filter P l) k →
  Forall (λ y, ∃ x, x ∈ l ∧ P x ∧ R x y) k.
Proof.
  intros HR.
  assert (Forall (λ x, x ∈ l ∧ P x) (filter P l)) as Hl.
  { apply Forall_forall. intros x [? ?]%list_elem_of_filter. by split. }
  induction HR as [|x y l' k' Hxy _ IH]; [constructor|].
  apply Forall_cons in Hl as [[? ?] Hl]. constructor; [|by apply IH].
  by exists x.
Qed.

Lemma generate_without_organization w doc_url endpoint_path model_path fs :
  generate w doc_url endpoint_path model_path fs =
  generate (without_organization w) doc_url endpoint_path model_path fs.
Proof.
  rewrite !generate_unfold.
  destruct (generate_app doc_url) as [app| |]; try done.
  rewrite !generate_models_mapM.
  change (root_vertices (requests_get_root (without_organization w) doc_url))
    with (filter (λ vertex, stub_id vertex ≠ "organization")
            (root_vertices (requests_get_root w doc_url))).
  change (root_outbound_edges (requests_get_root (without_organization w) doc_url))
    with (filter (λ edge, edge_head edge ≠ "organization")
            (root_outbound_edges (requests_get_root w doc_url))).
  change (model_of (without_organization w)) with (model_of w).
  change (record_description (without_organization w)) with (record_description w).
  rewrite filter_idemp.
  destruct (mapM (model_of w doc_url) _) as [models| |]; outcome_simpl; try done.
  rewrite !mret_Returns. cbv iota.
  destruct (_underscore_to_camelcase app "-") as [app_name| |]; try done.
  rewrite !generate_endpoints_mapM, filter_idemp.
  by destruct (mapM (endpoint_of _) _) as [endpoints| |].
Qed.

(** C4.  The [organization] vertex and the edges to it contribute nothing:
    [generate] does on a graph what it does on the graph without them, and
    when it returns, every entry of [models] is the model of a vertex of
    the root document whose id is not [organization], and every entry of
    [endpoints] is the endpoint of an edge whose head is not
    [organization]. *)
Theorem generate_excludes_organization w doc_url endpoint_path model_path fs :
  generate w doc_url endpoint_path model_path fs =
  generate (without_organization w) doc_url endpoint_path model_path fs ∧
  ∀ fs', generate w doc_url endpoint_path model_path fs = (Returns tt, fs') →
    ∃ app app_name models endpoints,
      fs' = <[output_file w endpoint_path app := render_endpoint w app_name endpoints]>
              (<[output_file w model_path app := render_model w app_name models]> fs) ∧
      Forall (λ m, ∃ vertex,
                vertex ∈ root_vertices (requests_get_root w doc_url) ∧
                stub_id vertex ≠ "organization" ∧
                model_of w doc_url vertex = Returns m) models ∧
      Forall (λ p, ∃ edge,
                edge ∈ root_outbound_edges (requests_get_root w doc_url) ∧
                edge_head edge ≠ "organization" ∧
                endpoint_of
                  (foldl (record_description w doc_url) ∅
                     (filter (λ vertex, stub_id vertex ≠ "organization")
                        (root_vertices (requests_get_root w doc_url))))
                  edge = Returns p) endpoints.
Proof.
  split; [apply generate_without_organization|].
  intros fs' (app & app_name & models & endpoints & _ & _ & Hm & He & ->)
    %generate_Returns_inv.
  exists app, app_name, models, endpoints. split; [done|].
  apply mapM_Returns in Hm, He. split.
  - by apply (Forall2_filter_origin _ _ _ _ Hm).
  - by apply (Forall2_filter_origin _ _ _ _ He).
Qed.

Lemma generate_excludes_organization_witness :
  ∃ app app_name models endpoints,
    <["endpoints/people.py" := "PeopleEndpoint ListPeople"]>
      (<["models/people.py" := "PeopleModel People=people"]> ∅)
    =@{gmap string string}
      <[output_file Scenario.world "endpoints" app :=
          render_endpoint Scenario.world app_name endpoints]>
        (<[output_file Scenario.world "models" app :=
             render_model Scenario.world app_name models]> ∅) ∧
    Forall (λ m, ∃ vertex,
              vertex ∈ root_vertices Scenario.root ∧
              stub_id vertex ≠ "organization" ∧
              model_of Scenario.world Scenario.doc_url vertex = Returns m) models ∧
    Forall (λ p, ∃ edge,
              edge ∈ root_outbound_edges Scenario.root ∧
              edge_head edge ≠ "organization" ∧
              endpoint_of
                (foldl (record_description Scenario.world Scenario.doc_url) ∅
                   (filter (λ vertex, stub_id vertex ≠ "organization")
                      (root_vertices Scenario.root)))
                edge = Returns p) endpoints.
Proof.
  apply (proj2 (generate_excludes_organization Scenario.world Scenario.doc_url
                  "endpoints" "models" ∅)).
  vm_compute. reflexivity.
Defined.

(** ** The descriptions of the endpoints *)

Lemma endpoint_of_Returns description_dict edge p :
  endpoint_of description_dict edge = Returns p →
  _underscore_to_camelcase (edge_name edge) "_" = Returns (endpoint_name p) ∧
  description_dict !! edge_head edge = Some (endpoint_description p).
Proof.
  rewrite endpoint_of_eq. unfold dict_getitem.
  destruct (_underscore_to_camelcase _ _) as [name| |]; outcome_simpl; try done.
  destruct (description_dict !! edge_head edge) as [description|];
    outcome_simpl; try done.
  by intros [= <-].
Qed.

Lemma endpoint_of_KeyError description_dict edge name :
  _underscore_to_camelcase (edge_name edge) "_" = Returns name →
  description_dict !! edge_head edge = None →
  endpoint_of description_dict edge = Raises (KeyError (edge_head edge)).
Proof.
  intros Hname Hhead. rewrite endpoint_of_eq, Hname. unfold dict_getitem.
  by rewrite Hhead.
Qed.

(** An edge yields an endpoint or a [LookupError]: the [IndexError] of the
    name formatter, or the [KeyError] of [description_dict]. *)
Lemma endpoint_of_cases description_dict edge :
  (∃ p, endpoint_of description_dict edge = Returns p) ∨
  (∃ e, endpoint_of description_dict edge = Raises e ∧ is_LookupError e = true).
Proof.
  rewrite endpoint_of_eq. unfold dict_getitem.
  destruct (underscore_to_camelcase_total (edge_name edge) "_") as [[name ->]| ->];
    outcome_simpl; [|right; by eexists].
  destruct (description_dict !! edge_head edge) as [description|];
    outcome_simpl; [left|right]; by eexists.
Qed.

Lemma endpoint_of_missing description_dict edge :
  description_dict !! edge_head edge = None →
  ∃ e, endpoint_of description_dict edge = Raises e ∧ is_LookupError e = true.
Proof.
  intros Hhead.
  destruct (endpoint_of_cases description_dict edge) as [[p Hp]|]; [|done].
  apply endpoint_of_Returns in Hp as [_ Hp]. congruence.
Qed.

(** The loop stops at the first element that raises. *)
Lemma mapM_Raises_first {A B} (f : A → outcome B) pre x post e :
  Forall (λ z, ∃ y, f z = Returns y) pre → f x = Raises e →
  mapM f (pre ++ x :: post) = Raises e.
Proof.
  intros Hpre Hx. induction Hpre as [|z pre [y Hy] _ IH].
  - rewrite app_nil_l, mapM_cons, Hx. by outcome_simpl.
  - rewrite <- app_comm_cons, mapM_cons, Hy, IH. by outcome_simpl.
Qed.

(** When every element returns or raises an exception in [P], and one
    element raises, the loop raises an exception in [P]. *)
Lemma mapM_Raises_some {A B} (P : exn → Prop) (f : A → outcome B) l x :
  (∀ z, z ∈ l → (∃ y, f z = Returns y) ∨ (∃ e, f z = Raises e ∧ P e)) →
  x ∈ l → (∃ e, f x = Raises e ∧ P e) →
  ∃ e, mapM f l = Raises e ∧ P e.
Proof.
  intros Hl Hx (e & He & HP). induction l as [|z l IH]; [by apply elem_of_nil in Hx|].
  rewrite mapM_cons.
  destruct (Hl z) as [[y Hy]|(e' & He' & HP')]; [by left| |].
  - rewrite Hy. outcome_simpl. apply elem_of_cons in Hx as [->|Hx]; [congruence|].
    destruct IH as (e'' & -> & HP''); [|done|].
    + intros z' Hz'. apply Hl. by right.
    + exists e''. by outcome_simpl.
  - exists e'. rewrite He'. by outcome_simpl.
Qed.

(** [generate] once the vertices are through and the model file is
    written: what is left is the loop over the edges. *)
Lemma generate_after_models w doc_url endpoint_path model_path fs
    app models description_dict app_name :
  generate_app doc_url = Returns app →
  generate_models w doc_url (root_vertices (requests_get_root w doc_url)) [] ∅
    = Returns (models, description_dict) →
  _underscore_to_camelcase app "-" = Returns app_name →
  generate w doc_url endpoint_path model_path fs =
  match mapM (endpoint_of description_dict)
          (filter (λ edge, edge_head edge ≠ "organization")
             (root_outbound_edges (requests_get_root w doc_url))) with
  | Returns endpoints =>
      (Returns tt,
       <[output_file w endpoint_path app := render_endpoint w app_name endpoints]>
         (<[output_file w model_path app := render_model w app_name models]> fs))
  | Raises e =>
      (Raises e, <[output_file w model_path app := render_model w app_name models]> fs)
  | OutOfFuel =>
      (OutOfFuel, <[output_file w model_path app := render_model w app_name models]> fs)
  end.
Proof.
  intros Happ Hmodels Hname.
  rewrite generate_unfold, Happ, Hmodels, Hname, generate_endpoints_mapM.
  by destruct (mapM _ _) as [endpoints| |].
Qed.

(** *** [generate] ends

    Nothing in [generate] loops but the name formatter, and that has fuel
    enough: a run returns or raises. *)

Lemma getitem_ends {A} (l : list A) i : Py.getitem l i ≠ OutOfFuel.
Proof. unfold Py.getitem. by repeat case_match. Qed.

Lemma index_ends `{EqDecision A} (l : list A) x : Py.index l x ≠ OutOfFuel.
Proof. unfold Py.index. by case_match. Qed.

Lemma underscore_to_camelcase_ends s repl_char :
  _underscore_to_camelcase s repl_char ≠ OutOfFuel.
Proof.
  by destruct (underscore_to_camelcase_total s repl_char) as [[r ->]| ->].
Qed.

Lemma mapM_ends {A B} (f : A → outcome B) l :
  (∀ x, f x ≠ OutOfFuel) → mapM f l ≠ OutOfFuel.
Proof.
  intros Hf. induction l as [|x l IH]; [done|].
  rewrite mapM_cons. specialize (Hf x).
  destruct (f x) as [y| |]; outcome_simpl; [|done..].
  by destruct (mapM f l) as [k| |].
Qed.

Lemma generate_app_ends doc_url : generate_app doc_url ≠ OutOfFuel.
Proof.
  unfold generate_app.
  pose proof (index_ends (Py.split "/" doc_url) "v2") as Hndx.
  destruct (Py.index _ _) as [ndx| |]; outcome_simpl; [|done..].
  apply getitem_ends.
Qed.

Lemma generate_endpoint_field_ends vertex_path :
  generate_endpoint_field vertex_path ≠ OutOfFuel.
Proof.
  unfold generate_endpoint_field.
  destruct (getitem_minus_one_split "/" vertex_path) as (seg & _ & ->).
  outcome_simpl. case_decide; [done|].
  pose proof (index_ends (Py.split "/" vertex_path) "v2") as Hndx.
  destruct (Py.index _ _) as [ndx| |]; outcome_simpl; [|done..].
  apply getitem_ends.
Qed.

Lemma generate_ends w doc_url endpoint_path model_path fs :
  (generate w doc_url endpoint_path model_path fs).1 ≠ OutOfFuel.
Proof.
  rewrite generate_unfold.
  pose proof (generate_app_ends doc_url) as Happ.
  destruct (generate_app doc_url) as [app| |]; [|done..].
  rewrite generate_models_mapM.
  pose proof (mapM_ends (model_of w doc_url)
    (filter (λ vertex, stub_id vertex ≠ "organization")
       (root_vertices (requests_get_root w doc_url)))) as Hmodels.
  destruct (mapM (model_of w doc_url) _) as [models| |]; outcome_simpl; try done.
  - rewrite mret_Returns. cbv iota.
    pose proof (underscore_to_camelcase_ends app "-") as Hname.
    destruct (_underscore_to_camelcase app "-") as [app_name| |]; [|done..].
    rewrite generate_endpoints_mapM.
    pose proof (mapM_ends (endpoint_of
      (foldl (record_description w doc_url) ∅
         (filter (λ vertex, stub_id vertex ≠ "organization")
            (root_vertices (requests_get_root w doc_url)))))
      (filter (λ edge, edge_head edge ≠ "organization")
         (root_outbound_edges (requests_get_root w doc_url)))) as Hedges.
    rewrite app_nil_l.
    destruct (mapM (endpoint_of _) _) as [endpoints| |]; outcome_simpl; try done.
    exfalso. apply Hedges; [|done]. intros edge.
    by destruct (endpoint_of_cases
      (foldl (record_description w doc_url) ∅
         (filter (λ vertex, stub_id vertex ≠ "organization")
            (root_vertices (requests_get_root w doc_url)))) edge)
      as [[p ->]|(e & -> & _)].
  - exfalso. apply Hmodels; [|done]. intros vertex. rewrite model_of_eq.
    pose proof (generate_endpoint_field_ends
      (vertex_path (fetch_vertex w doc_url vertex))) as Hfield.
    by destruct (generate_endpoint_field _) as [endpoint| |].
Qed.

(** C2.  In a run that reaches the loop over the edges, [description_dict]
    holds what the loop over the vertices recorded (for each vertex other
    than [organization], its description under its id); when [generate]
    returns, the description of every endpoint is the entry of
    [description_dict] at the head of its edge; and when the head of an edge
    that is not to [organization] has no entry, [generate] fails with a
    [LookupError] after the model file is written and substitutes nothing:
    with the [KeyError] of that head when the loop gets as far as the lookup
    (the edges before it yield endpoints and the name of the edge formats). *)
Theorem generate_endpoint_descriptions w doc_url endpoint_path model_path fs
    app models description_dict app_name :
  generate_app doc_url = Returns app →
  generate_models w doc_url (root_vertices (requests_get_root w doc_url)) [] ∅
    = Returns (models, description_dict) →
  _underscore_to_camelcase app "-" = Returns app_name →
  description_dict =
    foldl (record_description w doc_url) ∅
      (filter (λ vertex, stub_id vertex ≠ "organization")
         (root_vertices (requests_get_root w doc_url))) ∧
  (∀ fs', generate w doc_url endpoint_path model_path fs = (Returns tt, fs') →
     ∃ endpoints,
       fs' = <[output_file w endpoint_path app := render_endpoint w app_name endpoints]>
               (<[output_file w model_path app := render_model w app_name models]> fs) ∧
       Forall2 (λ edge p,
                  description_dict !! edge_head edge = Some (endpoint_description p))
         (filter (λ edge, edge_head edge ≠ "organization")
            (root_outbound_edges (requests_get_root w doc_url))) endpoints) ∧
  (∀ edge,
     edge ∈ root_outbound_edges (requests_get_root w doc_url) →
     edge_head edge ≠ "organization" →
     description_dict !! edge_head edge = None →
     ∃ e, generate w doc_url endpoint_path model_path fs =
          (Raises e,
           <[output_file w model_path app := render_model w app_name models]> fs) ∧
          is_LookupError e = true) ∧
  (∀ pre edge post,
     filter (λ edge, edge_head edge ≠ "organization")
       (root_outbound_edges (requests_get_root w doc_url)) = pre ++ edge :: post →
     Forall (λ edge', ∃ p, endpoint_of description_dict edge' = Returns p) pre →
     (∃ name, _underscore_to_camelcase (edge_name edge) "_" = Returns name) →
     description_dict !! edge_head edge = None →
     generate w doc_url endpoint_path model_path fs =
     (Raises (KeyError (edge_head edge)),
      <[output_file w model_path app := render_model w app_name models]> fs)).
Proof.
  intros Happ Hmodels Hname.
  rewrite (generate_after_models _ _ _ _ _ _ _ _ _ Happ Hmodels Hname).
  split_and!.
  - rewrite generate_models_mapM in Hmodels.
    destruct (mapM _ _) as [new| |]; [|done..].
    revert Hmodels. outcome_simpl. rewrite mret_Returns. by intros [= _ <-].
  - intros fs'. destruct (mapM _ _) as [endpoints| |] eqn:He; [|done..].
    intros [= <-]. exists endpoints. split; [done|].
    apply mapM_Returns in He. eapply Forall2_impl; [exact He|].
    intros edge p Hp. by apply endpoint_of_Returns in Hp as [_ ?].
  - intros edge Hedge Horg Hhead.
    destruct (mapM_Raises_some (λ e, is_LookupError e = true)
                (endpoint_of description_dict)
                (filter (λ edge, edge_head edge ≠ "organization")
                   (root_outbound_edges (requests_get_root w doc_url))) edge)
      as (e & -> & He).
    + intros edge' _. apply endpoint_of_cases.
    + by apply list_elem_of_filter.
    + by apply endpoint_of_missing.
    + by exists e.
  - intros pre edge post -> Hpre [name Hedge] Hhead.
    by rewrite (mapM_Raises_first _ pre edge post (KeyError (edge_head edge)))
      by eauto using endpoint_of_KeyError.
Qed.

Lemma generate_endpoint_descriptions_witness :
  generate Scenario.dangling_world Scenario.doc_url "endpoints" "models" ∅ =
  (Raises (KeyError "b"), <["models/people.py" := "PeopleModel People=people"]> ∅).
Proof.
  apply (proj2 (proj2 (proj2
    (generate_endpoint_descriptions Scenario.dangling_world Scenario.doc_url
       "endpoints" "models" ∅ "people"
       [ {| model_name := "People"; model_endpoint := "people";
            model_description := "A person" |} ]
       (<["a" := "A person"]> ∅) "People" eq_refl eq_refl eq_refl)))
    [ {| edge_name := "list_people"; edge_head := "a" |} ]
    {| edge_name := "list_households"; edge_head := "b" |} []).
  - reflexivity.
  - constructor; [|constructor]. by eexists.
  - by eexists.
  - reflexivity.
Defined.

(** ** The order of the two writes *)

(** C9.  The model file is written before the edges are processed: when
    the loop over the edges raises, [generate] ends with that exception and
    the model file holds the new content; no other file has changed, the
    endpoint file among them. *)
Theorem generate_model_file_first w doc_url endpoint_path model_path fs
    app models description_dict app_name e :
  generate_app doc_url = Returns app →
  generate_models w doc_url (root_vertices (requests_get_root w doc_url)) [] ∅
    = Returns (models, description_dict) →
  _underscore_to_camelcase app "-" = Returns app_name →
  generate_endpoints description_dict
    (root_outbound_edges (requests_get_root w doc_url)) [] = Raises e →
  ∃ fs',
    generate w doc_url endpoint_path model_path fs = (Raises e, fs') ∧
    fs' !! output_file w model_path app = Some (render_model w app_name models) ∧
    ∀ file, file ≠ output_file w model_path app → fs' !! file = fs !! file.
Proof.
  intros Happ Hmodels Hname Hedges.
  exists (<[output_file w model_path app := render_model w app_name models]> fs).
  split_and!.
  - by rewrite generate_unfold, Happ, Hmodels, Hname, Hedges.
  - apply lookup_insert_eq.
  - intros file Hfile. by apply lookup_insert_ne.
Qed.

Lemma generate_model_file_first_witness :
  ∃ fs',
    generate Scenario.dangling_world Scenario.doc_url "endpoints" "models"
      Scenario.stale_fs
    = (Raises (KeyError "b"), fs') ∧
    fs' !! "models/people.py" = Some "PeopleModel People=people" ∧
    ∀ file, file ≠ "models/people.py" → fs' !! file = Scenario.stale_fs !! file.
Proof.
  apply (generate_model_file_first Scenario.dangling_world Scenario.doc_url
           "endpoints" "models" _ "people"
           [ {| model_name := "People"; model_endpoint := "people";
                model_description := "A person" |} ]
           (<["a" := "A person"]> ∅) "People" (KeyError "b"));
    vm_compute; reflexivity.
Defined.

(** ** The name formatter on the identifiers of the specification *)

Example camelcase_check_ins :
  _underscore_to_camelcase "check-ins" "-" = Returns "CheckIns" ∧
  pascal_case "-" "check-ins" = "CheckIns".
Proof. split; reflexivity. Qed.

Example camelcase_list_people :
  _underscore_to_camelcase "list_people" "_" = Returns "ListPeople" ∧
  pascal_case "_" "list_people" = "ListPeople".
Proof. split; reflexivity. Qed.

(** consecutive delimiters inside an identifier are all removed *)
Example camelcase_consecutive_delimiters :
  _underscore_to_camelcase "list__people" "_" = Returns "ListPeople".
Proof. reflexivity. Qed.

Lemma endswith_append d s : Py.endswith d (s +:+ String d "") = true.
Proof.
  induction s as [|c s IH]; simpl.
  - by rewrite bool_decide_true.
  - rewrite <- IH. by destruct s.
Qed.

(** C5.  On an identifier that ends with the delimiter the formatter does
    not return the pascal-case form: the delimiter is deleted, no element is
    left at its index, and [string[under_ndx]] raises [IndexError]. *)
Theorem underscore_to_camelcase_not_pascal :
  _underscore_to_camelcase "list_" "_" = Raises IndexError ∧
  pascal_case "_" "list_" = "List".
Proof. split; reflexivity. Qed.

(** C7.  On a non-empty string that ends with the delimiter the formatter
    does not return: the [IndexError] of [string[under_ndx]] is not caught
    by [except ValueError].  So it is after consecutive delimiters at the
    end. *)
Theorem underscore_to_camelcase_trailing_delimiter :
  _underscore_to_camelcase "abc_" "_" = Raises IndexError ∧
  _underscore_to_camelcase "a__" "_" = Raises IndexError ∧
  ∀ s, _underscore_to_camelcase (s +:+ "_") "_" = Raises IndexError.
Proof.
  split_and!; [reflexivity..|].
  intros s. destruct (s +:+ "_") as [|c s'] eqn:Hs; [by destruct s|].
  rewrite (underscore_to_camelcase_pascal "_") by (done || apply upper_underscore).
  by rewrite <- Hs, endswith_append.
Qed.

(** C8, as the specification states it, fails: on the empty string the
    formatter does not raise an [InvalidArgument] error; the code has no
    such error. *)
Lemma underscore_to_camelcase_empty_not_InvalidArgument :
  ¬ ∃ e, _underscore_to_camelcase "" "_" = Raises e ∧
         class_name e = "InvalidArgument".
Proof. intros (e & [= <-] & Hname). discriminate. Qed.

(** C8, amended.  On the empty string the formatter returns no value: the
    subscript [string[0]] raises [IndexError], whatever the delimiter. *)
Theorem underscore_to_camelcase_empty repl_char :
  _underscore_to_camelcase "" repl_char = Raises IndexError.
Proof. reflexivity. Qed.

(** ** The scenario of the specification *)

Example scenario_models :
  generate_models Scenario.world Scenario.doc_url
    (root_vertices Scenario.root) [] ∅ =
  Returns ([ {| model_name := "People"; model_endpoint := "people";
                model_description := "A person" |} ],
           <["a" := "A person"]> ∅).
Proof. vm_compute. reflexivity. Qed.

Example scenario_endpoints :
  generate_endpoints (<["a" := "A person"]> ∅)
    (root_outbound_edges Scenario.root) [] =
  Returns [ {| endpoint_name := "ListPeople";
               endpoint_description := "A person" |} ].
Proof. vm_compute. reflexivity. Qed.

Example scenario_generate :
  generate Scenario.world Scenario.doc_url "endpoints" "models" Scenario.stale_fs =
  (Returns tt,
   <["endpoints/people.py" := "PeopleEndpoint ListPeople"]>
     (<["models/people.py" := "PeopleModel People=people"]> ∅)).
Proof. vm_compute. reflexivity. Qed.

(** * Further properties *)

(** ** Splitting *)

Lemma getitem_Returns_elem {A} (l : list A) i x :
  Py.getitem l i = Returns x → x ∈ l.
Proof.
  unfold Py.getitem. destruct (Py.position l i) as [j|]; [|done].
  destruct (l !! j) as [y|] eqn:Hj; [|done].
  intros [= <-]. by eapply list_elem_of_lookup_2.
Qed.

Lemma split_cons sep c s :
  c ≠ sep →
  ∃ w ws, Py.split sep s = w :: ws ∧ Py.split sep (String c s) = String c w :: ws.
Proof.
  intros Hc. simpl. rewrite decide_False by done.
  destruct (Py.split sep s) as [|w ws] eqn:Hs; [by apply split_not_nil in Hs|].
  by exists w, ws.
Qed.

(** no segment holds the separator *)
Lemma split_segments sep s seg :
  seg ∈ Py.split sep s → sep ∉ list_ascii_of_string seg.
Proof.
  revert seg. induction s as [|c s IH]; intros seg.
  - simpl. intros ->%list_elem_of_singleton. apply not_elem_of_nil.
  - destruct (decide (c = sep)) as [->|Hc].
    + simpl. rewrite decide_True by done.
      intros [->|Hseg]%elem_of_cons; [apply not_elem_of_nil | by apply IH].
    + destruct (split_cons sep c s Hc) as (w & ws & Hs & ->).
      rewrite Hs in IH.
      intros [->|Hseg]%elem_of_cons.
      * simpl. apply not_elem_of_cons. split; [done|]. apply IH. by left.
      * apply IH. by right.
Qed.

(** a string without the separator is one segment *)
Lemma split_one sep s :
  sep ∉ list_ascii_of_string s → Py.split sep s = [s].
Proof.
  induction s as [|c s IH]; [done|].
  simpl. intros [Hc Hs]%not_elem_of_cons.
  rewrite decide_False by done. by rewrite IH.
Qed.

(** splitting at a separator splits the list of segments *)
Lemma split_app sep s1 s2 :
  Py.split sep (s1 +:+ String sep s2) = Py.split sep s1 ++ Py.split sep s2.
Proof.
  induction s1 as [|c s1 IH].
  - simpl. by rewrite decide_True.
  - change (String c s1 +:+ String sep s2) with (String c (s1 +:+ String sep s2)).
    destruct (decide (c = sep)) as [->|Hc].
    + simpl. rewrite !decide_True by done. simpl. by f_equal.
    + destruct (split_cons sep c s1 Hc) as (w & ws & Hs & ->).
      destruct (split_cons sep c (s1 +:+ String sep s2) Hc) as (w' & ws' & Hs' & ->).
      rewrite IH, Hs in Hs'. simpl in Hs'. by injection Hs' as <- <-.
Qed.

Lemma replace_absent old new s :
  old ≠ new → old ∉ list_ascii_of_string (Py.replace old new s).
Proof.
  intros Hne. induction s as [|c s IH]; simpl; [apply not_elem_of_nil|].
  apply not_elem_of_cons. split; [|done]. by case_decide; subst.
Qed.

Lemma replace_keeps_absent old new c s :
  c ≠ new → c ∉ list_ascii_of_string s →
  c ∉ list_ascii_of_string (Py.replace old new s).
Proof.
  intros Hne. induction s as [|c' s IH]; simpl; [done|].
  intros [Hc Hs]%not_elem_of_cons. apply not_elem_of_cons.
  split; [|by apply IH]. by case_decide.
Qed.

(** X1.  The app the resolver returns holds no [/], and the name of the output
    files made from it holds neither [/] nor [-]: the two files are written
    in the two directories given, never below or beside them. *)
Theorem generate_app_file_name doc_url app :
  generate_app doc_url = Returns app →
  ("/"%char ∉ list_ascii_of_string app) ∧
  ("/"%char ∉ list_ascii_of_string (Py.replace "-" "_" app)) ∧
  ("-"%char ∉ list_ascii_of_string (Py.replace "-" "_" app)).
Proof.
  intros Happ.
  assert ("/"%char ∉ list_ascii_of_string app) as Hslash.
  { unfold generate_app in Happ.
    destruct (Py.index _ _) as [ndx| |]; try done.
    apply getitem_Returns_elem in Happ. by eapply split_segments. }
  split_and!; [done| |].
  - by apply replace_keeps_absent.
  - by apply replace_absent.
Qed.

Lemma generate_app_file_name_witness :
  ("/"%char ∉ list_ascii_of_string "check-ins") ∧
  ("/"%char ∉ list_ascii_of_string (Py.replace "-" "_" "check-ins")) ∧
  ("-"%char ∉ list_ascii_of_string (Py.replace "-" "_" "check-ins")).
Proof.
  apply (generate_app_file_name
    "https://api.planningcenteronline.com/check-ins/v2/documentation/2018-08-01").
  reflexivity.
Defined.

(** ** The endpoint of a model, when the path has no [v2] *)

Lemma generate_endpoint_field_cases vertex_path :
  ("v2" ∈ Py.split "/" vertex_path ∧
   ∃ endpoint, generate_endpoint_field vertex_path = Returns endpoint ∧
               "/"%char ∉ list_ascii_of_string endpoint) ∨
  (("v2" ∉ Py.split "/" vertex_path) ∧
   generate_endpoint_field vertex_path = Raises ValueError).
Proof.
  unfold generate_endpoint_field.
  destruct (getitem_minus_one_split "/" vertex_path) as (seg & Hlast & ->).
  outcome_simpl.
  destruct (decide (seg = "v2")) as [->|Hseg].
  - left. split; [by apply last_Some_elem_of|].
    exists "". split; [done|]. apply not_elem_of_nil.
  - destruct (decide ("v2" ∈ Py.split "/" vertex_path)) as [Hv2|Hv2].
    + left. split; [done|].
      destruct (list_elem_of_split_l _ _ Hv2) as (pre & rest & Hsplit & Hpre).
      rewrite Hsplit, index_app by done. outcome_simpl.
      destruct rest as [|nxt rest].
      { rewrite Hsplit, last_snoc in Hlast. congruence. }
      exists nxt. split.
      * replace (Z.of_nat (length pre) + 1)%Z
          with (Z.of_nat (length (pre ++ ["v2"])))
          by (rewrite length_app; simpl; lia).
        apply getitem_nat.
        change (pre ++ "v2" :: nxt :: rest) with (pre ++ ["v2"] ++ nxt :: rest).
        rewrite app_assoc. by apply list_lookup_middle.
      * apply (split_segments "/" vertex_path). rewrite Hsplit.
        apply elem_of_app. right. right. by left.
    + right. split; [done|]. by rewrite index_absent.
Qed.

(** X2.  The endpoint of a model is computed exactly when the path of the
    vertex document has a [v2] segment; without one, the [ValueError] of
    [path.index] is raised, and no other exception ever is.  An endpoint
    holds no [/]. *)
Theorem generate_endpoint_field_fails vertex_path :
  (∀ e, generate_endpoint_field vertex_path = Raises e ↔
        ("v2" ∉ Py.split "/" vertex_path) ∧ e = ValueError) ∧
  (∀ endpoint, generate_endpoint_field vertex_path = Returns endpoint →
        "v2" ∈ Py.split "/" vertex_path ∧
        "/"%char ∉ list_ascii_of_string endpoint).
Proof.
  destruct (generate_endpoint_field_cases vertex_path)
    as [(Hv2 & endpoint & Hfield & Hslash)|(Hv2 & Hfield)]; rewrite Hfield.
  - split.
    + intros e. split; [done|]. by intros [? _].
    + by intros ? [= <-].
  - split.
    + intros e. split; [by intros [= <-] | by intros [_ ->]].
    + done.
Qed.

Lemma generate_endpoint_field_fails_witness :
  generate_endpoint_field "https://api.planningcenteronline.com/people/v3/people"
    = Raises ValueError ∧
  "v2" ∈ Py.split "/" "https://api.planningcenteronline.com/people/v2/people".
Proof.
  split.
  - apply (proj1 (generate_endpoint_field_fails
      "https://api.planningcenteronline.com/people/v3/people")).
    split; [|reflexivity]. apply (proj1 (find_None _ _)). reflexivity.
  - apply (proj2 (generate_endpoint_field_fails
      "https://api.planningcenteronline.com/people/v2/people") "people").
    reflexivity.
Defined.

(** ** The documentation URL of an app *)

Lemma PCO_DOC_URL_PATTERN_split app version :
  ("/"%char ∉ list_ascii_of_string app) →
  Py.split "/" (PCO_DOC_URL_PATTERN_format app version) =
  ["https:"; ""; "api.planningcenteronline.com"; app; "v2"; "documentation"]
    ++ Py.split "/" version.
Proof.
  intros Happ.
  change (PCO_DOC_URL_PATTERN_format app version)
    with ("https:" +:+ String "/" ("" +:+ String "/"
           ("api.planningcenteronline.com" +:+ String "/"
             (app +:+ String "/" ("v2" +:+ String "/"
               ("documentation" +:+ String "/" version)))))).
  rewrite !split_app, (split_one "/" app) by done. reflexivity.
Qed.

Lemma generate_app_of_pattern app version :
  ("/"%char ∉ list_ascii_of_string app) → app ≠ "v2" →
  generate_app (PCO_DOC_URL_PATTERN_format app version) = Returns app.
Proof.
  intros Hslash Hv2.
  rewrite (generate_app_at
             ["https:"; ""; "api.planningcenteronline.com"; app]
             ("documentation" :: Py.split "/" version)).
  - rewrite !PCO_DOC_URL_PATTERN_split by done.
    apply (getitem_nat _ 3). reflexivity.
  - by rewrite PCO_DOC_URL_PATTERN_split by done.
  - rewrite !not_elem_of_cons. split_and!; try done; try congruence.
    apply not_elem_of_nil.
Qed.

(** ** The name formatter: fuel, delimiters and what is left of them *)

(** A loop that ended keeps its result with more fuel. *)
Lemma while_true_more_fuel {S} (body : M S unit) fuel :
  ∀ fuel' st, (fuel ≤ fuel')%nat →
  (while_true fuel body st).1 ≠ OutOfFuel →
  while_true fuel' body st = while_true fuel body st.
Proof.
  induction fuel as [|fuel IH]; intros fuel' st Hfuel; [done|].
  destruct fuel' as [|fuel']; [lia|].
  simpl. unfold mbind, M_bind.
  destruct (body st) as [[[]| |] st']; [|done..].
  apply IH. lia.
Qed.

Lemma underscore_to_camelcase_fuel_cons fuel c s repl_char :
  underscore_to_camelcase_fuel fuel (String c s) repl_char =
  match while_true fuel (camelcase_body repl_char)
          (Py.list_of (String (Py.upper_ascii c) s)) with
  | (Raises ValueError, string) => Returns (Py.join string)
  | (Raises e, _) => Raises e
  | (Returns _, string) => Returns (Py.join string)
  | (OutOfFuel, _) => OutOfFuel
  end.
Proof.
  unfold underscore_to_camelcase_fuel.
  unfold mbind, M_bind, mret, M_ret, get, put, lift, try_except.
  change (Py.list_of (String c s)) with (String c "" :: Py.list_of s).
  change (Py.getitem (String c "" :: Py.list_of s) 0)
    with (Returns (A:=string) (String c "")).
  cbv beta iota.
  change (Py.setitem (String c "" :: Py.list_of s) 0 (Py.upper (String c "")))
    with (Returns (Py.list_of (String (Py.upper_ascii c) s))).
  cbv beta iota.
  destruct (while_true _ _ _) as [[[]|[]|] string]; reflexivity.
Qed.

(** X3.  The fuel of the embedding is enough.  With any fuel above the length
    of the input the loop gives what [_underscore_to_camelcase] gives, and
    that is a string or an [IndexError]: the loop of the formatter always
    ends, and no [ValueError] leaves it. *)
Theorem underscore_to_camelcase_fuel_enough fuel s repl_char :
  (String.length s < fuel)%nat →
  underscore_to_camelcase_fuel fuel s repl_char
    = _underscore_to_camelcase s repl_char ∧
  ((∃ r, _underscore_to_camelcase s repl_char = Returns r) ∨
   _underscore_to_camelcase s repl_char = Raises IndexError).
Proof.
  intros Hfuel. split; [|apply underscore_to_camelcase_total].
  destruct s as [|c s]; [done|].
  unfold _underscore_to_camelcase. rewrite !underscore_to_camelcase_fuel_cons.
  simpl in Hfuel.
  assert (∀ n st, (length st < n)%nat →
            (while_true n (camelcase_body repl_char) st).1 ≠ OutOfFuel) as Hends.
  { intros n st Hn.
    by destruct (while_true_camelcase_ends repl_char n st Hn) as (e & st' & -> & _). }
  destruct (decide (fuel ≤ S (String.length (String c s)))%nat) as [Hle|Hle].
  - rewrite <- (while_true_more_fuel _ fuel (S (String.length (String c s)))); [done..|].
    apply Hends. rewrite length_list_of. simpl. lia.
  - rewrite (while_true_more_fuel _ (S (String.length (String c s))) fuel);
      [done|lia|].
    apply Hends. rewrite length_list_of. simpl. lia.
Qed.

Lemma underscore_to_camelcase_fuel_enough_witness :
  underscore_to_camelcase_fuel 40 "list_people" "_"
    = _underscore_to_camelcase "list_people" "_" ∧
  ((∃ r, _underscore_to_camelcase "list_people" "_" = Returns r) ∨
   _underscore_to_camelcase "list_people" "_" = Raises IndexError).
Proof. apply underscore_to_camelcase_fuel_enough. simpl. lia. Defined.

(** The elements of the list stay one character each, and the loop ends by
    [ValueError] only on a list without the delimiter. *)
Lemma while_true_camelcase_ValueError repl_char fuel :
  ∀ st st',
  Forall (λ x, ∃ c, x = String c "") st →
  while_true fuel (camelcase_body repl_char) st = (Raises ValueError, st') →
  Forall (λ x, ∃ c, x = String c "") st' ∧ repl_char ∉ st'.
Proof.
  induction fuel as [|fuel IH]; intros st st' Hst; [done|].
  simpl. unfold mbind, M_bind. rewrite camelcase_body_unfold.
  destruct (Py.find repl_char st) as [ndx|] eqn:Hfind.
  - destruct (delete ndx st !! ndx) as [x|] eqn:Hx; [|done].
    apply IH. apply Forall_insert; [by apply Forall_delete|].
    assert (x ∈ st) as Hin.
    { apply list_elem_of_lookup_2 in Hx. by eapply list_elem_of_delete_inv. }
    destruct (proj1 (Forall_forall _ _) Hst x Hin) as [c ->]. by eexists.
  - intros [= <-]. split; [done|]. by apply find_None.
Qed.

Lemma list_of_one_char s : Forall (λ x, ∃ c, x = String c "") (Py.list_of s).
Proof. induction s as [|c s IH]; simpl; constructor; eauto. Qed.

Lemma join_without (d : ascii) (st : list string) :
  Forall (λ x, ∃ c, x = String c "") st → String d "" ∉ st →
  d ∉ list_ascii_of_string (Py.join st).
Proof.
  induction 1 as [|x st [c ->] _ IH]; simpl; [intros _; apply not_elem_of_nil|].
  intros [Hc Hst]%not_elem_of_cons. apply not_elem_of_cons.
  split; [congruence | by apply IH].
Qed.

(** X4.  On an ASCII string, whatever the one-character delimiter, a string
    the formatter returns holds no delimiter. *)
Theorem underscore_to_camelcase_no_delimiter s (d : ascii) r :
  Py.isascii s = true →
  _underscore_to_camelcase s (String d "") = Returns r →
  d ∉ list_ascii_of_string r.
Proof.
  intros _. destruct s as [|c s]; [done|].
  rewrite underscore_to_camelcase_cons.
  destruct (while_true_camelcase_ends (String d "") (S (S (String.length s)))
              (Py.list_of (String (Py.upper_ascii c) s)))
    as (e & st' & Hloop & [->| ->]).
  - rewrite length_list_of. simpl. lia.
  - rewrite Hloop. intros [= <-].
    apply while_true_camelcase_ValueError in Hloop as [Hone Hd];
      [|apply list_of_one_char].
    by apply join_without.
  - by rewrite Hloop.
Qed.

Lemma underscore_to_camelcase_no_delimiter_witness :
  "A"%char ∉ list_ascii_of_string "XB".
Proof.
  apply (underscore_to_camelcase_no_delimiter "xAab" "A" "XB"); reflexivity.
Defined.

Lemma list_of_lengths s x : x ∈ Py.list_of s → String.length x = 1%nat.
Proof.
  intros Hx.
  by destruct (proj1 (Forall_forall _ _) (list_of_one_char s) x Hx) as [c ->].
Qed.

(** X5.  On an ASCII string, a delimiter that is not one character long
    (the empty string, or two characters and more) is never found in the
    list of characters: the formatter returns its input with the first
    character uppercased and every occurrence of the delimiter still in
    place. *)
Theorem underscore_to_camelcase_long_delimiter c s repl_char :
  Py.isascii (String c s) = true →
  String.length repl_char ≠ 1%nat →
  _underscore_to_camelcase (String c s) repl_char
  = Returns (String (Py.upper_ascii c) s).
Proof.
  intros _ Hlen. rewrite underscore_to_camelcase_cons.
  change (while_true (S ?n) ?b ?st)
    with (match b st with
          | (Returns a, s') => while_true n b s'
          | (Raises e, s') => (Raises e, s')
          | (OutOfFuel, s') => (OutOfFuel, s')
          end).
  rewrite camelcase_body_unfold.
  rewrite (proj2 (find_None _ _)).
  - by rewrite join_list_of.
  - intros Hin%list_of_lengths. congruence.
Qed.

Lemma underscore_to_camelcase_long_delimiter_witness :
  _underscore_to_camelcase "list__people" "__" = Returns "List__people".
Proof.
  apply underscore_to_camelcase_long_delimiter; [reflexivity | simpl; lia].
Defined.

(** *** The underscore and the dash *)

Section PascalFacts.
Variable d : ascii.
Hypothesis upper_d : Py.upper_ascii d = d.
Hypothesis upper_to_d : ∀ c, Py.upper_ascii c = d → c = d.

Lemma pascal_from_without cap s : d ∉ list_ascii_of_string (pascal_from d cap s).
Proof.
  revert cap. induction s as [|c s IH]; intros cap; simpl; [apply not_elem_of_nil|].
  case_decide as Hc; [done|]. simpl. apply not_elem_of_cons. split; [|done].
  destruct cap; [|congruence]. intros Hd. by apply Hc, upper_to_d.
Qed.

Lemma pascal_from_fixed s :
  d ∉ list_ascii_of_string s → pascal_from d false s = s.
Proof.
  induction s as [|c s IH]; simpl; [done|].
  intros [Hc Hs]%not_elem_of_cons. rewrite decide_False by done.
  by rewrite IH.
Qed.

Lemma pascal_from_idemp cap s :
  pascal_from d cap (pascal_from d cap s) = pascal_from d cap s.
Proof.
  destruct cap; [|apply pascal_from_fixed, pascal_from_without].
  induction s as [|c s IH]; simpl; [done|].
  case_decide as Hc; [done|]. simpl.
  rewrite decide_False by (intros Hd; by apply Hc, upper_to_d).
  rewrite upper_ascii_idemp.
  by rewrite pascal_from_fixed by apply pascal_from_without.
Qed.

Lemma pascal_from_not_empty cap c s :
  Py.endswith d (String c s) = false → pascal_from d cap (String c s) ≠ "".
Proof.
  revert cap c. induction s as [|c' s IH]; intros cap c.
  - simpl. intros Hc%bool_decide_eq_false. by rewrite decide_False.
  - intros Hend. change (Py.endswith d (String c' s) = false) in Hend.
    change (pascal_from d cap (String c (String c' s)))
      with (if decide (c = d) then pascal_from d true (String c' s)
            else String (if cap then Py.upper_ascii c else c)
                        (pascal_from d false (String c' s))).
    case_decide; [by apply IH | done].
Qed.

Lemma endswith_without s :
  d ∉ list_ascii_of_string s → Py.endswith d s = false.
Proof.
  induction s as [|c s IH]; [done|].
  simpl. intros [Hc Hs]%not_elem_of_cons.
  destruct s; [by apply bool_decide_eq_false | by apply IH].
Qed.

Lemma pascal_from_length cap s :
  (String.length (pascal_from d cap s)
   + length (filter (λ c, c = d) (list_ascii_of_string s)) = String.length s)%nat.
Proof.
  revert cap. induction s as [|c s IH]; intros cap; simpl; [done|].
  case_decide as Hc.
  - rewrite filter_cons_True by done. simpl. rewrite <- (IH true). lia.
  - rewrite filter_cons_False by done. simpl. by rewrite IH.
Qed.

Lemma underscore_to_camelcase_Returns s r :
  _underscore_to_camelcase s (String d "") = Returns r →
  s ≠ "" ∧ Py.endswith d s = false ∧ r = pascal_case d s.
Proof.
  destruct s as [|c s]; [done|].
  rewrite (underscore_to_camelcase_pascal d upper_d upper_to_d).
  destruct (Py.endswith d (String c s)); [done|]. by intros [= <-].
Qed.

Lemma underscore_to_camelcase_twice s r :
  _underscore_to_camelcase s (String d "") = Returns r →
  _underscore_to_camelcase r (String d "") = Returns r.
Proof.
  intros (Hs & Hend & ->)%underscore_to_camelcase_Returns.
  destruct s as [|c s]; [done|]. unfold pascal_case.
  pose proof (pascal_from_not_empty true c s Hend) as Hr.
  destruct (pascal_from d true (String c s)) as [|c' r] eqn:Hpascal; [done|].
  rewrite (underscore_to_camelcase_pascal d upper_d upper_to_d).
  rewrite endswith_without by (rewrite <- Hpascal; apply pascal_from_without).
  unfold pascal_case. by rewrite <- Hpascal, pascal_from_idemp.
Qed.

Lemma underscore_to_camelcase_Raises s e :
  _underscore_to_camelcase s (String d "") = Raises e ↔
  (s = "" ∨ Py.endswith d s = true) ∧ e = IndexError.
Proof.
  destruct s as [|c s].
  - split; [intros [= <-]; by split; [left|] | by intros [_ ->]].
  - rewrite (underscore_to_camelcase_pascal d upper_d upper_to_d).
    destruct (Py.endswith d (String c s)).
    + split; [intros [= <-]; by split; [right|] | by intros [_ ->]].
    + split; [done | by intros [[|] _]].
Qed.
End PascalFacts.

(** X6.  With the underscore or the dash as delimiter, the formatter fails on
    the empty string and on the strings that end with the delimiter, on no
    other string, and with no exception but [IndexError]. *)
Theorem underscore_to_camelcase_fails_iff (d : ascii) s e :
  d = "_"%char ∨ d = "-"%char →
  _underscore_to_camelcase s (String d "") = Raises e ↔
  (s = "" ∨ Py.endswith d s = true) ∧ e = IndexError.
Proof.
  intros [-> | ->].
  - apply underscore_to_camelcase_Raises; [done | apply upper_underscore].
  - apply underscore_to_camelcase_Raises; [done | apply upper_dash].
Qed.

Lemma underscore_to_camelcase_fails_iff_witness :
  _underscore_to_camelcase "check-ins-" "-" = Raises IndexError.
Proof.
  apply (underscore_to_camelcase_fails_iff "-" "check-ins-" IndexError).
  - by right.
  - split; [right|]; reflexivity.
Defined.

(** X7.  With the underscore or the dash as delimiter, the formatter is
    idempotent: formatting a name it returned returns that name again. *)
Theorem underscore_to_camelcase_idempotent (d : ascii) s r :
  d = "_"%char ∨ d = "-"%char →
  _underscore_to_camelcase s (String d "") = Returns r →
  _underscore_to_camelcase r (String d "") = Returns r.
Proof.
  intros [-> | ->].
  - apply underscore_to_camelcase_twice; [done | apply upper_underscore].
  - apply underscore_to_camelcase_twice; [done | apply upper_dash].
Qed.

Lemma underscore_to_camelcase_idempotent_witness :
  _underscore_to_camelcase "ListPeople" "_" = Returns "ListPeople".
Proof.
  apply (underscore_to_camelcase_idempotent "_" "list_people");
    [by left | reflexivity].
Defined.

(** X8.  On an ASCII string, with the underscore or the dash as delimiter,
    the string the formatter returns is shorter than its input by the
    number of delimiters in the input: every delimiter is removed and no
    other character is. *)
Theorem underscore_to_camelcase_length (d : ascii) s r :
  Py.isascii s = true →
  d = "_"%char ∨ d = "-"%char →
  _underscore_to_camelcase s (String d "") = Returns r →
  (String.length r + length (filter (λ c, c = d) (list_ascii_of_string s))
   = String.length s)%nat.
Proof.
  intros _ Hd Hr.
  assert (r = pascal_case d s) as ->.
  { destruct Hd as [-> | ->].
    - by apply (underscore_to_camelcase_Returns "_" eq_refl upper_underscore) in Hr
        as (_ & _ & ->).
    - by apply (underscore_to_camelcase_Returns "-" eq_refl upper_dash) in Hr
        as (_ & _ & ->). }
  apply pascal_from_length.
Qed.

Lemma underscore_to_camelcase_length_witness :
  (String.length "ListAllPeople"
   + length (filter (λ c, c = "_"%char) (list_ascii_of_string "list_all_people"))
   = String.length "list_all_people")%nat.
Proof.
  apply (underscore_to_camelcase_length "_" "list_all_people" "ListAllPeople");
    [reflexivity | by left | reflexivity].
Defined.

(** ** What [generate] writes, and when it writes nothing *)

(** X9.  [generate] changes no file but the two output files of the app:
    whatever the outcome, the file system it ends in is the one it started
    in, or differs from it at most at the model file and at the endpoint
    file of the app the URL resolves to. *)
Theorem generate_writes_only_outputs w doc_url endpoint_path model_path fs :
  (generate w doc_url endpoint_path model_path fs).2 = fs ∨
  ∃ app, generate_app doc_url = Returns app ∧
    ∀ file, file ≠ output_file w model_path app →
            file ≠ output_file w endpoint_path app →
            (generate w doc_url endpoint_path model_path fs).2 !! file = fs !! file.
Proof.
  rewrite generate_unfold.
  destruct (generate_app doc_url) as [app| |]; [|by left..].
  destruct (generate_models _ _ _ _ _) as [[models description_dict]| |];
    [|by left..].
  destruct (_underscore_to_camelcase app "-") as [app_name| |]; [|by left..].
  right. exists app. split; [done|]. intros file Hmodel Hendpoint.
  destruct (generate_endpoints _ _ _) as [endpoints| |]; simpl;
    by rewrite ?lookup_insert_ne by done.
Qed.

Lemma generate_writes_only_outputs_witness :
  (generate Scenario.world Scenario.doc_url "endpoints" "models"
     Scenario.stale_fs).2 !! "README.md"
  = Scenario.stale_fs !! "README.md".
Proof.
  destruct (generate_writes_only_outputs Scenario.world Scenario.doc_url
              "endpoints" "models" Scenario.stale_fs) as [->|(app & Happ & Hfile)].
  - reflexivity.
  - injection Happ as <-. apply Hfile; discriminate.
Defined.

Lemma model_of_cases w doc_url vertex :
  ("v2" ∈ Py.split "/" (vertex_path (fetch_vertex w doc_url vertex)) ∧
   ∃ m, model_of w doc_url vertex = Returns m) ∨
  (("v2" ∉ Py.split "/" (vertex_path (fetch_vertex w doc_url vertex))) ∧
   model_of w doc_url vertex = Raises ValueError).
Proof.
  rewrite model_of_eq.
  destruct (generate_endpoint_field_cases
              (vertex_path (fetch_vertex w doc_url vertex)))
    as [(Hv2 & endpoint & -> & _)|(Hv2 & ->)]; outcome_simpl.
  - left. split; [done|]. by eexists.
  - by right.
Qed.

(** X10.  A documentation URL without a [v2] segment makes [generate] raise
    [ValueError] before any request is used and any file is written. *)
Theorem generate_url_without_v2 w doc_url endpoint_path model_path fs :
  "v2" ∉ Py.split "/" doc_url →
  generate w doc_url endpoint_path model_path fs = (Raises ValueError, fs).
Proof.
  intros Hv2. rewrite generate_unfold. unfold generate_app.
  by rewrite index_absent.
Qed.

Lemma generate_url_without_v2_witness :
  generate Scenario.world "https://api.planningcenteronline.com/people"
    "endpoints" "models" Scenario.stale_fs
  = (Raises ValueError, Scenario.stale_fs).
Proof.
  apply generate_url_without_v2. apply (proj1 (find_None _ _)). reflexivity.
Defined.

(** X11.  When the path of the document of one vertex other than
    [organization] has no [v2] segment, [generate] raises [ValueError] and
    writes no file, whatever the other vertices and the edges are. *)
Theorem generate_vertex_without_v2 w doc_url endpoint_path model_path fs
    app vertex :
  generate_app doc_url = Returns app →
  vertex ∈ root_vertices (requests_get_root w doc_url) →
  stub_id vertex ≠ "organization" →
  "v2" ∉ Py.split "/" (vertex_path (fetch_vertex w doc_url vertex)) →
  generate w doc_url endpoint_path model_path fs = (Raises ValueError, fs).
Proof.
  intros Happ Hvertex Horg Hv2.
  rewrite generate_unfold, Happ, generate_models_mapM.
  destruct (mapM_Raises_some (λ e, e = ValueError) (model_of w doc_url)
              (filter (λ vertex, stub_id vertex ≠ "organization")
                 (root_vertices (requests_get_root w doc_url))) vertex)
    as (e & -> & ->); [| | |done].
  - intros vertex' _.
    destruct (model_of_cases w doc_url vertex') as [[_ ?]|[_ ?]]; eauto.
  - by apply list_elem_of_filter.
  - destruct (model_of_cases w doc_url vertex) as [[? _]|[_ ?]]; [done|eauto].
Qed.

Lemma generate_vertex_without_v2_witness :
  generate
    (with_vertex_document Scenario.world
       (Scenario.doc_url +:+ "/vertices/a")
       {| vertex_id := "a";
          vertex_path := "https://api.planningcenteronline.com/people/v3/people";
          vertex_description := "A person" |})
    Scenario.doc_url "endpoints" "models" Scenario.stale_fs
  = (Raises ValueError, Scenario.stale_fs).
Proof.
  apply (generate_vertex_without_v2 _ _ _ _ _ "people"
           {| stub_id := "a"; stub_name := "People" |}).
  - reflexivity.
  - by left.
  - discriminate.
  - apply (proj1 (find_None _ _)). reflexivity.
Defined.

(** X12.  An app segment that is empty or ends with a dash makes [generate]
    raise [IndexError] when it formats the app name, after the loop over
    the vertices and before the model file is written. *)
Theorem generate_app_name_fails w doc_url endpoint_path model_path fs
    app models description_dict :
  generate_app doc_url = Returns app →
  generate_models w doc_url (root_vertices (requests_get_root w doc_url)) [] ∅
    = Returns (models, description_dict) →
  app = "" ∨ Py.endswith "-" app = true →
  generate w doc_url endpoint_path model_path fs = (Raises IndexError, fs).
Proof.
  intros Happ Hmodels Hbad.
  rewrite generate_unfold, Happ, Hmodels.
  by rewrite (proj2 (underscore_to_camelcase_Raises "-" eq_refl upper_dash
                       app IndexError)).
Qed.

Lemma generate_app_name_fails_witness :
  generate Scenario.world "https://api.planningcenteronline.com//v2/documentation"
    "endpoints" "models" Scenario.stale_fs
  = (Raises IndexError, Scenario.stale_fs).
Proof.
  apply (generate_app_name_fails Scenario.world _ _ _ _ ""
           [ {| model_name := "People"; model_endpoint := "people";
                model_description := "A person" |} ]
           (<["a" := "A person"]> ∅)).
  - reflexivity.
  - vm_compute. reflexivity.
  - by left.
Defined.

(** X13.  With one directory for both files, the endpoint file replaces the
    model file: after a run that returns, the file of the app holds the
    rendering of the endpoints, and the rendering of the models is lost. *)
Theorem generate_same_directory w doc_url path fs fs' :
  generate w doc_url path path fs = (Returns tt, fs') →
  ∃ app app_name endpoints,
    generate_app doc_url = Returns app ∧
    _underscore_to_camelcase app "-" = Returns app_name ∧
    mapM (endpoint_of
            (foldl (record_description w doc_url) ∅
               (filter (λ vertex, stub_id vertex ≠ "organization")
                  (root_vertices (requests_get_root w doc_url)))))
      (filter (λ edge, edge_head edge ≠ "organization")
         (root_outbound_edges (requests_get_root w doc_url))) = Returns endpoints ∧
    fs' = <[output_file w path app := render_endpoint w app_name endpoints]> fs.
Proof.
  intros (app & app_name & models & endpoints & ? & ? & _ & ? & ->)
    %generate_Returns_inv.
  exists app, app_name, endpoints. split_and!; [done..|].
  apply insert_insert_eq.
Qed.

Lemma generate_same_directory_witness :
  ∃ app app_name endpoints,
    generate_app Scenario.doc_url = Returns app ∧
    _underscore_to_camelcase app "-" = Returns app_name ∧
    mapM (endpoint_of
            (foldl (record_description Scenario.world Scenario.doc_url) ∅
               (filter (λ vertex, stub_id vertex ≠ "organization")
                  (root_vertices Scenario.root))))
      (filter (λ edge, edge_head edge ≠ "organization")
         (root_outbound_edges Scenario.root)) = Returns endpoints ∧
    <["out/people.py" := "PeopleEndpoint ListPeople"]> ∅
    =@{gmap string string}
      <[output_file Scenario.world "out" app :=
          render_endpoint Scenario.world app_name endpoints]> ∅.
Proof.
  apply (generate_same_directory Scenario.world Scenario.doc_url "out" ∅).
  vm_compute. reflexivity.
Defined.

(** X14.  Running [generate] again on the files it left changes nothing: the
    outcome is the same and so are the files, after a run that returned and
    after a run that raised. *)
Theorem generate_again w doc_url endpoint_path model_path fs o fs' :
  generate w doc_url endpoint_path model_path fs = (o, fs') →
  generate w doc_url endpoint_path model_path fs' = (o, fs').
Proof.
  rewrite !generate_unfold.
  destruct (generate_app doc_url) as [app| |]; [|by intros [= <- <-]..].
  destruct (generate_models _ _ _ _ _) as [[models description_dict]| |];
    [|by intros [= <- <-]..].
  destruct (_underscore_to_camelcase app "-") as [app_name| |];
    [|by intros [= <- <-]..].
  destruct (generate_endpoints _ _ _) as [endpoints| |]; intros [= <- <-];
    f_equal; apply map_eq; intros file; rewrite !lookup_insert;
    by repeat case_decide.
Qed.

Lemma generate_again_witness :
  generate Scenario.dangling_world Scenario.doc_url "endpoints" "models"
    (<["models/people.py" := "PeopleModel People=people"]> ∅)
  = (Raises (KeyError "b"),
     <["models/people.py" := "PeopleModel People=people"]> ∅).
Proof.
  apply (generate_again Scenario.dangling_world Scenario.doc_url
           "endpoints" "models" ∅).
  vm_compute. reflexivity.
Defined.

(** ** The descriptions recorded for the endpoints *)

Lemma foldl_record_description_lookup w doc_url vertices description_dict k :
  foldl (record_description w doc_url) description_dict vertices !! k =
  match last (filter (λ vertex, vertex_id (fetch_vertex w doc_url vertex) = k)
                vertices) with
  | Some vertex => Some (vertex_description (fetch_vertex w doc_url vertex))
  | None => description_dict !! k
  end.
Proof.
  induction vertices as [|vertex vertices IH] using rev_ind; [done|].
  rewrite foldl_app, filter_app. simpl. unfold record_description at 1.
  destruct (decide (vertex_id (fetch_vertex w doc_url vertex) = k)) as [<-|Hk].
  - rewrite lookup_insert_eq.
    rewrite (filter_cons_True _ vertex []) by done.
    by rewrite filter_nil, last_snoc.
  - rewrite lookup_insert_ne by done.
    rewrite (filter_cons_False _ vertex []) by done.
    by rewrite filter_nil, app_nil_r.
Qed.

(** X15.  [description_dict] is keyed by the id of the vertex document, and
    the last document wins: after the loop over the vertices, the entry at
    an id is the description of the last vertex other than [organization]
    whose document has that id, and there is no entry when no document has
    it. *)
Theorem generate_models_last_description w doc_url vertices models
    description_dict k :
  generate_models w doc_url vertices [] ∅ = Returns (models, description_dict) →
  description_dict !! k =
  (λ vertex, vertex_description (fetch_vertex w doc_url vertex)) <$>
    last (filter (λ vertex, vertex_id (fetch_vertex w doc_url vertex) = k)
            (filter (λ vertex, stub_id vertex ≠ "organization") vertices)).
Proof.
  rewrite generate_models_mapM.
  destruct (mapM _ _) as [new| |]; outcome_simpl; [|done..].
  rewrite mret_Returns. intros [= _ <-].
  rewrite foldl_record_description_lookup.
  by destruct (last _).
Qed.

Lemma generate_models_last_description_witness :
  (<["a" := "A person"]> ∅ : gmap string string) !! "a" =
  (λ vertex, vertex_description
               (fetch_vertex Scenario.world Scenario.doc_url vertex)) <$>
    last (filter (λ vertex,
                    vertex_id (fetch_vertex Scenario.world Scenario.doc_url vertex)
                    = "a")
            (filter (λ vertex, stub_id vertex ≠ "organization")
               (root_vertices Scenario.root))).
Proof.
  apply (generate_models_last_description Scenario.world Scenario.doc_url
           (root_vertices Scenario.root)
           [ {| model_name := "People"; model_endpoint := "people";
                model_description := "A person" |} ]).
  vm_compute. reflexivity.
Defined.

(** ** The document of the [organization] vertex *)

Lemma append_inv_head (s a b : string) : s +:+ a = s +:+ b → a = b.
Proof. induction s as [|c s IH]; simpl; [done|]. intros [= ?]. by apply IH. Qed.

Lemma mapM_ext_elem {A B} (f g : A → outcome B) l :
  (∀ x, x ∈ l → f x = g x) → mapM f l = mapM g l.
Proof.
  induction l as [|x l IH]; intros Hfg; [done|].
  rewrite !mapM_cons, Hfg, IH; [done| |by left].
  intros y Hy. apply Hfg. by right.
Qed.

Lemma foldl_ext_elem {A B} (f g : A → B → A) a l :
  (∀ a' x, x ∈ l → f a' x = g a' x) → foldl f a l = foldl g a l.
Proof.
  revert a. induction l as [|x l IH]; intros a Hfg; [done|].
  simpl. rewrite Hfg by (by left). apply IH.
  intros a' y Hy. apply Hfg. by right.
Qed.

(** X16.  [generate] never uses the document of the [organization] vertex:
    whatever the API answers at [<doc_url>/vertices/organization], the
    outcome and the files are the same. *)
Theorem generate_never_fetches_organization w doc_url endpoint_path model_path
    fs doc :
  generate (with_vertex_document w (doc_url +:+ "/vertices/organization") doc)
    doc_url endpoint_path model_path fs
  = generate w doc_url endpoint_path model_path fs.
Proof.
  set (w' := with_vertex_document w (doc_url +:+ "/vertices/organization") doc).
  assert (∀ vertex, stub_id vertex ≠ "organization" →
            fetch_vertex w' doc_url vertex = fetch_vertex w doc_url vertex)
    as Hfetch.
  { intros vertex Horg. unfold fetch_vertex, w', with_vertex_document. simpl.
    rewrite decide_False; [done|].
    intros Heq%append_inv_head. apply Horg.
    change ("/vertices/" +:+ stub_id vertex = "/vertices/" +:+ "organization")
      in Heq.
    by apply append_inv_head in Heq. }
  rewrite !generate_unfold, !generate_models_mapM.
  change (requests_get_root w') with (requests_get_root w).
  change (output_file w') with (output_file w).
  change (render_model w') with (render_model w).
  change (render_endpoint w') with (render_endpoint w).
  rewrite (mapM_ext_elem (model_of w' doc_url) (model_of w doc_url)).
  - rewrite (foldl_ext_elem (record_description w' doc_url)
               (record_description w doc_url)); [done|].
    intros d vertex [Horg _]%list_elem_of_filter.
    unfold record_description. by rewrite Hfetch.
  - intros vertex [Horg _]%list_elem_of_filter.
    rewrite !model_of_eq. by rewrite Hfetch.
Qed.

(** ** The command line *)

(** X17.  With [--app] and no documentation URL, the run is the run of
    [generate] on the URL of the pattern, and for an app without [/] other
    than [v2] the app resolved from that URL is the app given: the files
    are named after [--app]. *)
Theorem main_app_mode w arguments app :
  arg_doc_url arguments = None ∨ arg_doc_url arguments = Some "" →
  arg_app arguments = Some app → app ≠ "all" →
  ("/"%char ∉ list_ascii_of_string app) → app ≠ "v2" →
  main w arguments =
    generate w
      (PCO_DOC_URL_PATTERN_format app (format_value (arg_version arguments)))
      (arg_endpoint_path arguments) (arg_model_path arguments) ∧
  generate_app
    (PCO_DOC_URL_PATTERN_format app (format_value (arg_version arguments)))
  = Returns app.
Proof.
  intros Hurl Happ Hall Hslash Hv2.
  split; [|by apply generate_app_of_pattern].
  unfold main. rewrite Happ. simpl.
  rewrite decide_True by congruence.
  by destruct Hurl as [-> | ->].
Qed.

Lemma main_app_mode_witness :
  generate_app (PCO_DOC_URL_PATTERN_format "check-ins" "2018-08-01")
  = Returns "check-ins".
Proof.
  apply (main_app_mode Scenario.world
           {| arg_doc_url := None; arg_app := Some "check-ins";
              arg_version := Some "2018-08-01";
              arg_endpoint_path := "endpoints"; arg_model_path := "models" |}
           "check-ins").
  - by left.
  - reflexivity.
  - discriminate.
  - apply (proj1 (find_None _ _)). reflexivity.
  - discriminate.
Defined.

(** X18.  Each of the six apps of [PCO_ALL_APPS] resolves from its
    documentation URL to itself, whatever the version, and its name is
    formatted without an error: in a run over all apps, no app fails before
    its documents are read. *)
Theorem PCO_ALL_APPS_resolve version :
  Forall (λ app,
            generate_app (PCO_DOC_URL_PATTERN_format app version) = Returns app ∧
            ∃ app_name, _underscore_to_camelcase app "-" = Returns app_name)
    PCO_ALL_APPS.
Proof.
  unfold PCO_ALL_APPS.
  repeat (constructor;
          [split; [apply generate_app_of_pattern;
                     [apply (proj1 (find_None _ _)); reflexivity | discriminate]
                  | by eexists] |]).
  constructor.
Qed.

Lemma for_each_stops {S A} (body : A → M S unit) pre x post st st1 e st2 :
  for_each pre body st = (Returns tt, st1) →
  body x st1 = (Raises e, st2) →
  for_each (pre ++ x :: post) body st = (Raises e, st2).
Proof.
  revert st. induction pre as [|y pre IH]; intros st.
  - simpl. intros [= <-] Hx. unfold mbind, M_bind. by rewrite Hx.
  - simpl. unfold mbind, M_bind.
    destruct (body y st) as [[[]| |] st'] eqn:Hy; [|done..].
    intros Hpre Hx. by apply IH.
Qed.

(** X19.  A run over all apps takes them in the order of [PCO_ALL_APPS] and
    stops at the first app whose [generate] raises: the exception ends the
    run, the files of the apps before it stay as written, and no later app
    is generated. *)
Theorem main_all_stops w arguments pre app post fs fs1 e fs2 :
  arg_doc_url arguments = None ∨ arg_doc_url arguments = Some "" →
  arg_app arguments = Some "all" →
  PCO_ALL_APPS = pre ++ app :: post →
  for_each pre (λ app,
      generate w
        (PCO_DOC_URL_PATTERN_format app (format_value (arg_version arguments)))
        (arg_endpoint_path arguments) (arg_model_path arguments)) fs
    = (Returns tt, fs1) →
  generate w
    (PCO_DOC_URL_PATTERN_format app (format_value (arg_version arguments)))
    (arg_endpoint_path arguments) (arg_model_path arguments) fs1
    = (Raises e, fs2) →
  main w arguments fs = (Raises e, fs2).
Proof.
  intros Hurl Hall Happs Hpre Happ.
  unfold main. rewrite Hall, decide_False by (by intros ?).
  rewrite Happs.
  assert (for_each (pre ++ app :: post)
            (λ app, generate w
               (PCO_DOC_URL_PATTERN_format app
                  (format_value (arg_version arguments)))
               (arg_endpoint_path arguments) (arg_model_path arguments)) fs
          = (Raises e, fs2)) as Hrun
    by (by eapply for_each_stops).
  by destruct Hurl as [-> | ->].
Qed.

Lemma main_all_stops_witness :
  main AllApps.world AllApps.arguments ∅ =
  (Raises (KeyError "b"),
   <["models/giving.py" := "GivingModel People=people"]>
     (<["endpoints/check_ins.py" := "CheckInsEndpoint ListPeople"]>
        (<["models/check_ins.py" := "CheckInsModel People=people"]> ∅))).
Proof.
  apply (main_all_stops AllApps.world AllApps.arguments
           ["check-ins"] "giving"
           ["people"; "services"; "resources"; "webhooks"] ∅
           (<["endpoints/check_ins.py" := "CheckInsEndpoint ListPeople"]>
              (<["models/check_ins.py" := "CheckInsModel People=people"]> ∅))).
  - by left.
  - reflexivity.
  - reflexivity.
  - vm_compute. reflexivity.
  - vm_compute. reflexivity.
Defined.

(** ** The names of the classes *)

(** X20.  After a run that returns, the class names in the two files hold no
    delimiter: the formatted app name holds no dash, and no endpoint name
    holds an underscore. *)
Theorem generate_class_names w doc_url endpoint_path model_path fs fs' :
  generate w doc_url endpoint_path model_path fs = (Returns tt, fs') →
  ∃ app app_name models endpoints,
    generate_app doc_url = Returns app ∧
    _underscore_to_camelcase app "-" = Returns app_name ∧
    fs' = <[output_file w endpoint_path app := render_endpoint w app_name endpoints]>
            (<[output_file w model_path app := render_model w app_name models]> fs) ∧
    ("-"%char ∉ list_ascii_of_string app_name) ∧
    Forall (λ p, "_"%char ∉ list_ascii_of_string (endpoint_name p)) endpoints.
Proof.
  intros (app & app_name & models & endpoints & Happ & Hname & _ & He & ->)
    %generate_Returns_inv.
  exists app, app_name, models, endpoints. split_and!; [done..| |].
  - apply (underscore_to_camelcase_Returns "-" eq_refl upper_dash) in Hname
      as (_ & _ & ->).
    apply pascal_from_without, upper_dash.
  - apply mapM_Returns in He. eapply Forall2_Forall_r; [exact He|].
    apply Forall_forall. intros edge _ p [Hp _]%endpoint_of_Returns.
    apply (underscore_to_camelcase_Returns "_" eq_refl upper_underscore) in Hp
      as (_ & _ & ->).
    apply pascal_from_without, upper_underscore.
Qed.

Lemma generate_class_names_witness :
  ∃ app app_name models endpoints,
    generate_app Scenario.doc_url = Returns app ∧
    _underscore_to_camelcase app "-" = Returns app_name ∧
    <["endpoints/people.py" := "PeopleEndpoint ListPeople"]>
      (<["models/people.py" := "PeopleModel People=people"]> ∅)
    =@{gmap string string}
      <[output_file Scenario.world "endpoints" app :=
          render_endpoint Scenario.world app_name endpoints]>
        (<[output_file Scenario.world "models" app :=
             render_model Scenario.world app_name models]> ∅) ∧
    ("-"%char ∉ list_ascii_of_string app_name) ∧
    Forall (λ p, "_"%char ∉ list_ascii_of_string (endpoint_name p)) endpoints.
Proof.
  apply (generate_class_names Scenario.world Scenario.doc_url
           "endpoints" "models" ∅).
  vm_compute. reflexivity.
Defined.
